(** * seekingalphad89ba32s: the Seeking Alpha market-news connector

    A shallow embedding of [seekingalphad89ba32s/__init__.py] and the
    properties of its crawl-and-extract pipeline.

    Conventions of the embedding.
    - Python text is a [string] of ASCII characters: the character
      classes [is_space], [is_word] and [lower] are those of Python on
      code points below 128, and statements about which texts a pattern
      accepts are about ASCII text.
    - A call that may raise returns a [result]; [try: ... except Exception]
      is [try_except].  A generator is the list of what it yields together
      with the way it ends ([Ok tt], or [Raise e] when an exception leaves
      it).
    - The network and the clock are a [World]: what a GET of a URL gives,
      already parsed, and what the clock reads when an article is checked.
    - [datetime] values are the fields the standard library keeps;
      [strptime] and [strftime] interpret the format strings that appear in
      the source. *)

From Stdlib Require Import ZArith Lia Bool Ascii String List.
From stdpp Require Import base option gmap strings.

Local Open Scope Z_scope.

(** ** Exceptions and results *)

Inductive exn : Set :=
| TransportError   (* requests.get failed or timed out *)
| AttributeError   (* [.text] or [.findChildren] on a missing element *)
| KeyError         (* [card["href"]] on an anchor without href *)
| ValueError       (* strptime: the text does not match the format *)
| OverflowError    (* datetime arithmetic leaves year 1..9999 *)
| TypeError.       (* ordering an int against a non-number *)

Inductive result (A : Type) : Type :=
| Ok (a : A)
| Raise (e : exn).
Arguments Ok {A} a.
Arguments Raise {A} e.

Global Instance result_ret : MRet result := λ A a, Ok a.
Global Instance result_bind : MBind result := λ A B k r,
  match r with
  | Ok a => k a
  | Raise e => Raise e
  end.

Global Instance result_fmap : FMap result := λ A B f r,
  match r with
  | Ok a => Ok (f a)
  | Raise e => Raise e
  end.

(** [x.attr] where [x] may be [None]. *)
Definition deref {A} (o : option A) : result A :=
  match o with
  | Some a => Ok a
  | None => Raise AttributeError
  end.

(** ** Python values that reach [read_parameters] *)

Inductive scalar : Type :=
| SNone
| SBool (b : bool)
| SInt (z : Z)
| SStr (s : string).

Inductive pyobj : Type :=
| PScalar (v : scalar)
| PList (l : list scalar)
| PDict (d : gmap string scalar).

Definition scalar_truthy (v : scalar) : bool :=
  match v with
  | SNone => false
  | SBool b => b
  | SInt z => negb (z =? 0)
  | SStr s => negb (String.eqb s "")
  end.

Definition truthy (p : pyobj) : bool :=
  match p with
  | PScalar v => scalar_truthy v
  | PList l => negb (bool_decide (l = []))
  | PDict d => negb (bool_decide (d = ∅))
  end.

Definition isinstance_dict (p : pyobj) : bool :=
  match p with
  | PDict _ => true
  | _ => false
  end.

(** The number a scalar stands for in an ordering with an int; [None] and
    [str] have none and the comparison raises. *)
Definition as_number (v : scalar) : result Z :=
  match v with
  | SInt z => Ok z
  | SBool b => Ok (if b then 1 else 0)
  | SNone | SStr _ => Raise TypeError
  end.

(** ** Module constants *)

Definition DEFAULT_OLDNESS_SECONDS : Z := 360.
Definition DEFAULT_MAXIMUM_ITEMS : Z := 25.
Definition DEFAULT_MIN_POST_LENGTH : Z := 10.

(** ** read_parameters *)

(** [parameters.get(key, dflt)]: never raises on a dict. *)
Definition dict_get (d : gmap string scalar) (key : string) (dflt : Z) : scalar :=
  default (SInt dflt) (d !! key).

(** The dict behind an object that passed [isinstance(_, dict)]. *)
Definition as_dict (p : pyobj) : gmap string scalar :=
  match p with
  | PDict d => d
  | _ => ∅
  end.

Definition read_parameters (parameters : pyobj) : scalar * scalar * scalar :=
  if truthy parameters && isinstance_dict parameters then
    let d := as_dict parameters in
    let max_oldness_seconds := dict_get d "max_oldness_seconds" DEFAULT_OLDNESS_SECONDS in
    let maximum_items_to_collect := dict_get d "maximum_items_to_collect" DEFAULT_MAXIMUM_ITEMS in
    let min_post_length := dict_get d "min_post_length" DEFAULT_MIN_POST_LENGTH in
    (max_oldness_seconds, maximum_items_to_collect, min_post_length)
  else
    (SInt DEFAULT_OLDNESS_SECONDS, SInt DEFAULT_MAXIMUM_ITEMS, SInt DEFAULT_MIN_POST_LENGTH).

(** ** Characters *)

(** The value of a decimal digit: the code points 48 to 57. *)
Definition digit_val (c : ascii) : option Z :=
  let n := Z.of_N (N_of_ascii c) in
  if (48 <=? n) && (n <=? 57) then Some (n - 48) else None.

(** The character of the last decimal digit of [n]. *)
Definition digit_char (n : Z) : ascii :=
  ascii_of_N (Z.to_N (48 + n mod 10)).

(** [\s] of a str pattern, on ASCII. *)
Definition is_space (c : ascii) : bool :=
  match c with
  | " " | "009" | "010" | "011" | "012" | "013"
  | "028" | "029" | "030" | "031" => true
  | _ => false
  end%char.

Definition lower (c : ascii) : ascii :=
  let n := N_of_ascii c in
  if ((65 <=? n) && (n <=? 90))%N then ascii_of_N (n + 32) else c.

(** Equality of characters under [re.IGNORECASE]. *)
Definition eqb_nocase (a b : ascii) : bool := Ascii.eqb (lower a) (lower b).

(** [\w] of a str pattern, on ASCII: letters, digits and the underscore.
    Python also counts the letters and digits beyond code point 127, which
    the texts of this embedding do not hold. *)
Definition is_word (c : ascii) : bool :=
  let n := N_of_ascii c in
  (((48 <=? n) && (n <=? 57)) || ((65 <=? n) && (n <=? 90))
   || ((97 <=? n) && (n <=? 122)) || (n =? 95))%N.

(** ** The proleptic Gregorian calendar of [datetime] *)

Definition MINYEAR : Z := 1.
Definition MAXYEAR : Z := 9999.

Definition is_leap (year : Z) : bool :=
  (year mod 4 =? 0) && (negb (year mod 100 =? 0) || (year mod 400 =? 0)).

Definition days_in_month (year month : Z) : Z :=
  match month with
  | 2 => if is_leap year then 29 else 28
  | 4 | 6 | 9 | 11 => 30
  | _ => 31
  end.

Definition days_before_year (year : Z) : Z :=
  let y := year - 1 in
  y * 365 + y / 4 - y / 100 + y / 400.

Definition days_before_month (year month : Z) : Z :=
  match month with
  | 1 => 0 | 2 => 31 | 3 => 59 | 4 => 90 | 5 => 120 | 6 => 151
  | 7 => 181 | 8 => 212 | 9 => 243 | 10 => 273 | 11 => 304 | _ => 334
  end + (if (2 <? month) && is_leap year then 1 else 0).

(** Day 1 is 0001-01-01. *)
Definition ymd2ord (year month day : Z) : Z :=
  days_before_year year + days_before_month year month + day.

Record datetime : Type := mkDatetime {
  year : Z; month : Z; day : Z;
  hour : Z; minute : Z; second : Z; microsecond : Z
}.

Definition valid_date (y m d : Z) : bool :=
  (MINYEAR <=? y) && (y <=? MAXYEAR) && (1 <=? m) && (m <=? 12)
  && (1 <=? d) && (d <=? days_in_month y m).

Definition valid_time (h mi s us : Z) : bool :=
  (0 <=? h) && (h <=? 23) && (0 <=? mi) && (mi <=? 59)
  && (0 <=? s) && (s <=? 59) && (0 <=? us) && (us <=? 999999).

Definition valid_datetime (t : datetime) : bool :=
  valid_date (year t) (month t) (day t)
  && valid_time (hour t) (minute t) (second t) (microsecond t).

(** The constructor [datetime(y, m, d, H, M, S, us)]. *)
Definition make_datetime (y m d h mi s us : Z) : result datetime :=
  if valid_date y m d && valid_time h mi s us
  then Ok (mkDatetime y m d h mi s us)
  else Raise ValueError.

(** Whole seconds, and microseconds, counted from the start of the day of
    ordinal 0: the scale on which two datetimes are subtracted. *)
Definition to_seconds (t : datetime) : Z :=
  ymd2ord (year t) (month t) (day t) * 86400
  + hour t * 3600 + minute t * 60 + second t.

Definition to_microseconds (t : datetime) : Z :=
  to_seconds t * 1000000 + microsecond t.

(** [(a - b).total_seconds()], kept exact as a count of microseconds. *)
Definition sub_microseconds (a b : datetime) : Z :=
  to_microseconds a - to_microseconds b.

(** The calendar day after (y, m, d); there is none after 9999-12-31. *)
Definition date_succ (ymd : Z * Z * Z) : result (Z * Z * Z) :=
  let '(y, m, d) := ymd in
  if d <? days_in_month y m then Ok (y, m, d + 1)
  else if m <? 12 then Ok (y, m + 1, 1)
  else if y <? MAXYEAR then Ok (y + 1, 1, 1)
  else Raise OverflowError.

Fixpoint add_days (n : nat) (ymd : Z * Z * Z) : result (Z * Z * Z) :=
  match n with
  | O => Ok ymd
  | S n' => ymd' ← date_succ ymd; add_days n' ymd'
  end.

(** [t + timedelta(hours=h)] for [h >= 0]: the time of day moves on by [h]
    hours and the date by the days that carries. *)
Definition add_hours (t : datetime) (h : Z) : result datetime :=
  let total := hour t + h in
  '(y, m, d) ← add_days (Z.to_nat (total / 24)) (year t, month t, day t);
  Ok (mkDatetime y m d (total mod 24) (minute t) (second t) (microsecond t)).

(** ** strptime

    [datetime.strptime(data, format)] turns the format into a pattern: a
    run of whitespace becomes [\s+], a directive becomes the alternatives
    listed with each parser below, any other character stands for itself;
    the pattern is matched from the start of [data], ignoring case, and
    must use [data] up.  The alternatives of a directive are tried in the
    library's order and the first that fits is taken.  In the two formats
    of this module a numeric directive is always followed by a character
    that is not a digit, so a later alternative never fits where the first
    one leads to a mismatch. *)

Inductive directive : Set :=
| DLit (c : ascii)   (* a character of the format *)
| DSpace             (* a run of whitespace in the format *)
| Db | Dd | DY | DI | DM | Dp | Dm | DH | DS.

Definition directive_of (c : ascii) : result directive :=
  match c with
  | "b" => Ok Db | "d" => Ok Dd | "Y" => Ok DY | "I" => Ok DI
  | "M" => Ok DM | "p" => Ok Dp | "m" => Ok Dm | "H" => Ok DH
  | "S" => Ok DS | "%" => Ok (DLit "%")
  | _ => Raise ValueError
  end%char.

Fixpoint compile_format (in_space : bool) (fmt : string) : result (list directive) :=
  match fmt with
  | EmptyString => Ok []
  | String c rest =>
      if is_space c then
        if in_space then compile_format true rest
        else ds ← compile_format true rest; Ok (DSpace :: ds)
      else if Ascii.eqb c "%" then
        match rest with
        | String d rest' =>
            dir ← directive_of d; ds ← compile_format false rest'; Ok (dir :: ds)
        | EmptyString => Raise ValueError
        end
      else ds ← compile_format false rest; Ok (DLit c :: ds)
  end.

(** What the directives have found so far; the defaults are those of
    [_strptime]. *)
Record parsed : Type := mkParsed {
  p_year : Z; p_month : Z; p_day : Z;
  p_hour : Z;              (* from %H *)
  p_hour12 : option Z;     (* from %I *)
  p_pm : bool;             (* %p found "pm" *)
  p_minute : Z; p_second : Z
}.

Definition parsed_init : parsed := mkParsed 1900 1 1 0 None false 0 0.

(** Two digits [a b] as a number when both are digits. *)
Definition two_digits (a b : ascii) : option Z :=
  x ← digit_val a; y ← digit_val b; Some (10 * x + y).

(** A field of one or two digits: [two] admits a pair of digits, [one] a
    single digit. *)
Definition parse_1or2 (two one : Z → bool) (s : string) : option (Z * string) :=
  match s with
  | String a (String b rest) =>
      match two_digits a b with
      | Some v =>
          if two v then Some (v, rest)
          else match digit_val a with
               | Some x => if one x then Some (x, String b rest) else None
               | None => None
               end
      | None =>
          match digit_val a with
          | Some x => if one x then Some (x, String b rest) else None
          | None => None
          end
      end
  | String a EmptyString =>
      match digit_val a with
      | Some x => if one x then Some (x, EmptyString) else None
      | None => None
      end
  | EmptyString => None
  end.

Definition between (lo hi v : Z) : bool := (lo <=? v) && (v <=? hi).

(** %d: 3[0-1]|[1-2]\d|0[1-9]|[1-9]| [1-9] *)
Definition parse_d (s : string) : option (Z * string) :=
  match parse_1or2 (between 1 31) (between 1 9) s with
  | Some r => Some r
  | None =>
      match s with
      | String " " (String b rest) =>
          match digit_val b with
          | Some x => if between 1 9 x then Some (x, rest) else None
          | None => None
          end
      | _ => None
      end
  end.

(** %m and %I: 1[0-2]|0[1-9]|[1-9] *)
Definition parse_m (s : string) : option (Z * string) :=
  parse_1or2 (between 1 12) (between 1 9) s.
Definition parse_I (s : string) : option (Z * string) :=
  parse_1or2 (between 1 12) (between 1 9) s.

(** %H: 2[0-3]|[0-1]\d|\d *)
Definition parse_H (s : string) : option (Z * string) :=
  parse_1or2 (between 0 23) (between 0 9) s.

(** %M: [0-5]\d|\d *)
Definition parse_M (s : string) : option (Z * string) :=
  parse_1or2 (between 0 59) (between 0 9) s.

(** %S: 6[0-1]|[0-5]\d|\d *)
Definition parse_S (s : string) : option (Z * string) :=
  parse_1or2 (between 0 61) (between 0 9) s.

(** %Y: \d\d\d\d *)
Definition parse_Y (s : string) : option (Z * string) :=
  match s with
  | String a (String b (String c (String d rest))) =>
      hi ← two_digits a b; lo ← two_digits c d; Some (100 * hi + lo, rest)
  | _ => None
  end.

(** Month abbreviations of the C locale, as [_strptime] keeps them. *)
Definition a_month : list string :=
  ["jan"; "feb"; "mar"; "apr"; "may"; "jun";
   "jul"; "aug"; "sep"; "oct"; "nov"; "dec"].

Fixpoint index_of (x : string) (l : list string) (i : Z) : option Z :=
  match l with
  | [] => None
  | y :: l' => if String.eqb x y then Some i else index_of x l' (i + 1)
  end.

(** %b *)
Definition parse_b (s : string) : option (Z * string) :=
  match s with
  | String a (String b (String c rest)) =>
      m ← index_of (String (lower a) (String (lower b) (String (lower c) EmptyString)))
                   a_month 1;
      Some (m, rest)
  | _ => None
  end.

(** %p: am|pm; the boolean is "pm". *)
Definition parse_p (s : string) : option (bool * string) :=
  match s with
  | String a (String b rest) =>
      if Ascii.eqb (lower b) "m" then
        if Ascii.eqb (lower a) "a" then Some (false, rest)
        else if Ascii.eqb (lower a) "p" then Some (true, rest)
        else None
      else None
  | _ => None
  end.

Fixpoint skip_spaces (s : string) : string :=
  match s with
  | String c rest => if is_space c then skip_spaces rest else s
  | EmptyString => s
  end.

(** \s+ *)
Definition parse_space (s : string) : option string :=
  match s with
  | String c rest => if is_space c then Some (skip_spaces rest) else None
  | EmptyString => None
  end.

Definition run_directive (d : directive) (s : string) (acc : parsed)
  : option (parsed * string) :=
  match d with
  | DLit c =>
      match s with
      | String a rest => if eqb_nocase a c then Some (acc, rest) else None
      | EmptyString => None
      end
  | DSpace => rest ← parse_space s; Some (acc, rest)
  | Db => '(v, rest) ← parse_b s;
      Some (mkParsed (p_year acc) v (p_day acc) (p_hour acc) (p_hour12 acc)
              (p_pm acc) (p_minute acc) (p_second acc), rest)
  | Dm => '(v, rest) ← parse_m s;
      Some (mkParsed (p_year acc) v (p_day acc) (p_hour acc) (p_hour12 acc)
              (p_pm acc) (p_minute acc) (p_second acc), rest)
  | Dd => '(v, rest) ← parse_d s;
      Some (mkParsed (p_year acc) (p_month acc) v (p_hour acc) (p_hour12 acc)
              (p_pm acc) (p_minute acc) (p_second acc), rest)
  | DY => '(v, rest) ← parse_Y s;
      Some (mkParsed v (p_month acc) (p_day acc) (p_hour acc) (p_hour12 acc)
              (p_pm acc) (p_minute acc) (p_second acc), rest)
  | DH => '(v, rest) ← parse_H s;
      Some (mkParsed (p_year acc) (p_month acc) (p_day acc) v (p_hour12 acc)
              (p_pm acc) (p_minute acc) (p_second acc), rest)
  | DI => '(v, rest) ← parse_I s;
      Some (mkParsed (p_year acc) (p_month acc) (p_day acc) (p_hour acc) (Some v)
              (p_pm acc) (p_minute acc) (p_second acc), rest)
  | Dp => '(v, rest) ← parse_p s;
      Some (mkParsed (p_year acc) (p_month acc) (p_day acc) (p_hour acc) (p_hour12 acc)
              v (p_minute acc) (p_second acc), rest)
  | DM => '(v, rest) ← parse_M s;
      Some (mkParsed (p_year acc) (p_month acc) (p_day acc) (p_hour acc) (p_hour12 acc)
              (p_pm acc) v (p_second acc), rest)
  | DS => '(v, rest) ← parse_S s;
      Some (mkParsed (p_year acc) (p_month acc) (p_day acc) (p_hour acc) (p_hour12 acc)
              (p_pm acc) (p_minute acc) v, rest)
  end.

Fixpoint run_directives (ds : list directive) (s : string) (acc : parsed)
  : option parsed :=
  match ds with
  | [] => if String.eqb s "" then Some acc else None  (* unconverted data remains *)
  | d :: ds' => '(acc', rest) ← run_directive d s acc; run_directives ds' rest acc'
  end.

(** The hour of the day: a 12-hour clock reading with its AM/PM mark, or
    the %H field when no %I was found. *)
Definition hour_of (p : parsed) : Z :=
  match p_hour12 p with
  | Some h =>
      if p_pm p then (if h =? 12 then 12 else h + 12)
      else (if h =? 12 then 0 else h)
  | None => p_hour p
  end.

Definition strptime (data fmt : string) : result datetime :=
  ds ← compile_format false fmt;
  match run_directives ds data parsed_init with
  | Some p =>
      make_datetime (p_year p) (p_month p) (p_day p) (hour_of p)
                    (p_minute p) (p_second p) 0
  | None => Raise ValueError
  end.

(** ** strftime *)

Definition pad2 (v : Z) : string :=
  String (digit_char (v / 10)) (String (digit_char (v mod 10)) EmptyString).

Definition pad4 (v : Z) : string := pad2 (v / 100) +:+ pad2 (v mod 100).

(** %Y as the C library of the platform writes it for [datetime]: the
    year in decimal without padding, so three digits or fewer for a year
    below 1000. *)
Definition year_text (y : Z) : string :=
  if y <? 10 then String (digit_char y) ""
  else if y <? 100 then pad2 y
  else if y <? 1000 then String (digit_char (y / 100)) (pad2 (y mod 100))
  else pad4 y.

(** The directives this module uses: %Y is [year_text], %m %d %H %M %S are
    two digits each; every other character is copied. *)
Fixpoint strftime (t : datetime) (fmt : string) : string :=
  match fmt with
  | EmptyString => EmptyString
  | String "%" (String d rest) =>
      match d with
      | "Y" => year_text (year t) +:+ strftime t rest
      | "m" => pad2 (month t) +:+ strftime t rest
      | "d" => pad2 (day t) +:+ strftime t rest
      | "H" => pad2 (hour t) +:+ strftime t rest
      | "M" => pad2 (minute t) +:+ strftime t rest
      | "S" => pad2 (second t) +:+ strftime t rest
      | _ => String "%" (String d (strftime t rest))
      end%char
  | String c rest => String c (strftime t rest)
  end.

(** ** Pages, as BeautifulSoup shows them to this module *)

(** A direct child of the content container: its tag name and [.text]. *)
Record Tag : Type := mkTag { name : string; text : string }.

(** An anchor of the listing; [href] is [None] when the attribute is
    missing and [card["href"]] raises. *)
Record Anchor : Type := mkAnchor { href : option string }.

(** The lookups the module makes on a parsed page.  Each [find] gives the
    [.text] of the first matching element, or [None]. *)
Record Soup : Type := mkSoup {
  find_post_date : option string;          (* span data-test-id="post-date" *)
  find_post_title : option string;         (* h1 data-test-id="post-title" *)
  find_post_author_nick : option string;   (* span data-test-id="post-author-nick" *)
  find_content_container : option (list Tag);
    (* div data-test-id="content-container", [findChildren(recursive=False)] *)
  find_all_post_list_item_title : list Anchor
    (* a data-test-id="post-list-item-title", in document order *)
}.

Record World : Type := mkWorld {
  http_get : string → result Soup;   (* requests.get, then BeautifulSoup *)
  utcnow : string → datetime         (* datetime.now(pytz.utc) while the
                                        article at this URL is checked *)
}.

(** The record of [exorde_data]; its constructors are taken to accept every
    text, and an [Item] is truthy. *)
Record Item : Type := mkItem {
  title : string; content : string; author : string;
  created_at : string; url : string; domain : string
}.

(** ** Text helpers *)

Fixpoint mem_char (c : ascii) (chars : string) : bool :=
  match chars with
  | EmptyString => false
  | String a rest => Ascii.eqb c a || mem_char c rest
  end.

(** [s.lstrip(chars)]: drops leading characters while they belong to the
    set [chars]. *)
Fixpoint lstrip (s chars : string) : string :=
  match s with
  | String c rest => if mem_char c chars then lstrip rest chars else s
  | EmptyString => EmptyString
  end.

(** [s.replace(old, "")] for a non-empty [old]: every occurrence, left to
    right, without overlap.  [fuel] bounds the scan by the length of [s]. *)
Fixpoint drop_chars (n : nat) (s : string) : string :=
  match n, s with
  | O, _ => s
  | S n', String _ rest => drop_chars n' rest
  | S _, EmptyString => EmptyString
  end.

Fixpoint remove_all (fuel : nat) (old s : string) : string :=
  match fuel with
  | O => s
  | S fuel' =>
      match s with
      | EmptyString => EmptyString
      | String c rest =>
          if String.prefix old s then remove_all fuel' old (drop_chars (String.length old) s)
          else String c (remove_all fuel' old rest)
      end
  end.

Definition replace_with_empty (s old : string) : string :=
  remove_all (String.length s) old s.

(** ** REGEX_PATTERN = r"^More on \w+(:)?$"

    [re.match] anchors at the start; [\w+] takes the longest run of word
    characters (what follows it in the pattern is never a word character,
    so giving one back cannot help); [$] fits at the end of the text or
    before a newline that ends it. *)
Fixpoint skip_word (s : string) : string :=
  match s with
  | String c rest => if is_word c then skip_word rest else s
  | EmptyString => s
  end.

Definition at_dollar (s : string) : bool :=
  String.eqb s "" || String.eqb s (String "010" "").

Definition match_after_word (s : string) : bool :=
  match s with
  | String ":" rest => at_dollar rest
  | _ => at_dollar s
  end.

Definition strip_prefix (p s : string) : option string :=
  if String.prefix p s then Some (drop_chars (String.length p) s) else None.

Definition re_match_REGEX_PATTERN (txt : string) : bool :=
  match strip_prefix "More on " txt with
  | Some (String c rest) =>
      is_word c && match_after_word (skip_word rest)
  | _ => false
  end.

(** ** convert_date_to_standard_format *)

Definition SITE_FORMAT : string := "%b. %d, %Y %I:%M %p".
Definition CANONICAL_FORMAT : string := "%Y-%m-%dT%H:%M:%S.00Z".

Definition convert_date_to_standard_format (_date : string) : result string :=
  let cleaned_time := replace_with_empty _date " ET" in
  parsed_time ← strptime cleaned_time SITE_FORMAT;
  datetime_obj ← add_hours parsed_time 4;
  Ok (strftime datetime_obj CANONICAL_FORMAT).

(** ** check_for_max_age

    [now] is the reading of [datetime.now(pytz.utc)]; the source formats it
    and parses it back, which keeps its whole seconds. *)
Definition now_time_of (now : datetime) : result datetime :=
  strptime (strftime now CANONICAL_FORMAT) CANONICAL_FORMAT.

Definition check_for_max_age (now : datetime) (_date : string) (_max_age : scalar)
  : result bool :=
  date_to_check ← strptime _date CANONICAL_FORMAT;
  now_time ← now_time_of now;
  max_age ← as_number _max_age;
  if sub_microseconds now_time date_to_check <=? max_age * 1000000
  then Ok true else Ok false.

(** ** request_content_with_timeout *)

(** The loop over the direct children of the content container. *)
Fixpoint content_loop (content_paragraphs : list Tag) (content : string) : string :=
  match content_paragraphs with
  | [] => content
  | el :: rest =>
      if String.eqb (name el) "h2" then content
      else if negb (String.eqb (name el) "figure") && negb (String.eqb (text el) "") then
        if re_match_REGEX_PATTERN (text el) then content
        else content_loop rest ((content +:+ text el) +:+ String "010" "")
      else content_loop rest content
  end.

(** [try: ... except Exception: logging.exception(...)] around a body whose
    value is returned: after the handler the function falls off its end and
    returns [None]. *)
Definition try_except {A} (body : result (option A)) : option A :=
  match body with
  | Ok v => v
  | Raise _ => None
  end.

Definition request_content_body (w : World) (_url : string) (_max_age : scalar)
  : result (option Item) :=
  soup ← http_get w _url;
  date_text ← deref (find_post_date soup);
  post_date ← convert_date_to_standard_format date_text;
  fresh ← check_for_max_age (utcnow w _url) post_date _max_age;
  if negb fresh then Ok None
  else
    post_title ← deref (find_post_title soup);
    author_text ← deref (find_post_author_nick soup);
    let author := lstrip author_text "By: " in
    content_paragraphs ← deref (find_content_container soup);
    let content := content_loop content_paragraphs "" in
    Ok (Some (mkItem post_title content author post_date _url "seekingalpha.com")).

Definition request_content_with_timeout (w : World) (_url : string) (_max_age : scalar)
  : option Item :=
  try_except (request_content_body w _url _max_age).

(** ** The generators

    What a generator yields, in order, and how it ends. *)
Record generated : Type := mkGenerated {
  yielded : list Item;
  ending : result unit
}.

(** [except Exception] around a generator body: the exception is logged and
    the generator ends normally; what was yielded stays yielded. *)
Definition gen_try_except (g : generated) : generated :=
  match ending g with
  | Ok _ => g
  | Raise _ => mkGenerated (yielded g) (Ok tt)
  end.

Definition gen_cons (item : Item) (g : generated) : generated :=
  mkGenerated (item :: yielded g) (ending g).

Definition SITE_ORIGIN : string := "https://seekingalpha.com".

Definition getitem_href (card : Anchor) : result string :=
  match href card with
  | Some h => Ok h
  | None => Raise KeyError
  end.

(** ** parse_entry_for_elements *)

(** ["https://seekingalpha.com" + card["href"]] *)
Definition article_url (h : string) : string := SITE_ORIGIN +:+ h.

Fixpoint parse_entry_loop (w : World) (_cards : list Anchor) (_max_age : scalar)
  : generated :=
  match _cards with
  | [] => mkGenerated [] (Ok tt)
  | card :: rest =>
      match getitem_href card with
      | Raise e => mkGenerated [] (Raise e)
      | Ok h =>
          match request_content_with_timeout w (article_url h) _max_age with
          | Some item => gen_cons item (parse_entry_loop w rest _max_age)
          | None => mkGenerated [] (Ok tt)   (* break *)
          end
      end
  end.

Definition parse_entry_for_elements (w : World) (_cards : list Anchor) (_max_age : scalar)
  : generated :=
  gen_try_except (parse_entry_loop w _cards _max_age).

(** ** request_entries_with_timeout *)

Definition request_entries_with_timeout (w : World) (_url : string) (_max_age : scalar)
  : generated :=
  gen_try_except
    match http_get w _url with
    | Raise e => mkGenerated [] (Raise e)
    | Ok soup =>
        let entries := find_all_post_list_item_title soup in
        parse_entry_for_elements w entries _max_age
    end.

(** ** query *)

(** The body of [async for item in ...]: [items] is what the inner generator
    still has to yield and [inner_end] how it ends once exhausted. *)
Fixpoint query_loop (items : list Item) (inner_end : result unit)
    (yielded_items : Z) (maximum_items_to_collect : scalar) : generated :=
  match items with
  | [] => mkGenerated [] inner_end
  | item :: rest =>
      let yielded_items := yielded_items + 1 in
      (* yield item *)
      match as_number maximum_items_to_collect with
      | Raise e => mkGenerated [item] (Raise e)
      | Ok cap =>
          if cap <=? yielded_items then mkGenerated [item] (Ok tt)   (* break *)
          else gen_cons item (query_loop rest inner_end yielded_items
                                maximum_items_to_collect)
      end
  end.

Definition url_main_endpoint : string := "https://seekingalpha.com/market-news".

Definition query (w : World) (parameters : pyobj) : generated :=
  let yielded_items := 0 in
  let '(max_oldness_seconds, maximum_items_to_collect, min_post_length) :=
    read_parameters parameters in
  let inner := request_entries_with_timeout w url_main_endpoint max_oldness_seconds in
  query_loop (yielded inner) (ending inner) yielded_items maximum_items_to_collect.

(** ** Auxiliary notions for the statements *)

(** The record one link of the listing gives: [None] when the anchor has no
    href, the article is stale, or its extraction fails. *)
Definition record_of (w : World) (_max_age : scalar) (card : Anchor) : option Item :=
  h ← href card; request_content_with_timeout w (article_url h) _max_age.

Definition is_absolute (h : string) : bool :=
  String.prefix "http://" h || String.prefix "https://" h.

(** The URL of an article as the specification words it: the origin is
    prefixed to a relative href only.  Not what the module computes, which
    is [article_url]. *)
Definition spec_article_url (h : string) : string :=
  if is_absolute h then h else SITE_ORIGIN +:+ h.

(** The author as the specification words it: the label removed as a
    prefix.  The module computes [lstrip]. *)
Definition spec_strip_label (label s : string) : string :=
  match strip_prefix label s with
  | Some rest => rest
  | None => s
  end.

Fixpoint all_word (s : string) : bool :=
  match s with
  | EmptyString => true
  | String c rest => is_word c && all_word rest
  end.

(** The texts of the site format "Mon. D, YYYY H:MM AM/PM ET": the
    abbreviated month with its period, the day and the hour of the 12-hour
    clock without padding, the year in four digits, the minute in two. *)
Definition month_abbr (m : Z) : string :=
  match m with
  | 1 => "Jan" | 2 => "Feb" | 3 => "Mar" | 4 => "Apr" | 5 => "May"
  | 6 => "Jun" | 7 => "Jul" | 8 => "Aug" | 9 => "Sep" | 10 => "Oct"
  | 11 => "Nov" | _ => "Dec"
  end.

Definition unpadded (v : Z) : string :=
  if v <? 10 then String (digit_char v) "" else pad2 v.

Definition site_date_body (y m d h12 mi : Z) (pm : bool) : string :=
  month_abbr m +:+ ". " +:+ unpadded d +:+ ", " +:+ pad4 y +:+ " "
  +:+ unpadded h12 +:+ ":" +:+ pad2 mi +:+ " " +:+ (if pm then "PM" else "AM").

Definition site_date_string (y m d h12 mi : Z) (pm : bool) : string :=
  site_date_body y m d h12 mi pm +:+ " ET".

Definition valid_site_fields (y m d h12 mi : Z) : bool :=
  valid_date y m d && (1 <=? h12) && (h12 <=? 12) && (0 <=? mi) && (mi <=? 59).

(** The hour of the day of a 12-hour clock reading. *)
Definition hour24 (h12 : Z) (pm : bool) : Z :=
  if pm then (if h12 =? 12 then 12 else h12 + 12)
  else (if h12 =? 12 then 0 else h12).

(** The last four hours of 9999-12-31, from which four hours on leave the
    range of [datetime]. *)
Definition last_four_hours (y m d h12 : Z) (pm : bool) : bool :=
  (y =? 9999) && (m =? 12) && (d =? 31) && (20 <=? hour24 h12 pm).

Definition is_digit (c : ascii) : bool :=
  match digit_val c with Some _ => true | None => false end.

(** The canonical pattern "YYYY-MM-DDTHH:MM:SS.00Z", [Y M D H S] digits. *)
Definition matches_canonical_pattern (s : string) : bool :=
  match s with
  | String y1 (String y2 (String y3 (String y4 (String "-"
    (String m1 (String m2 (String "-"
    (String d1 (String d2 (String "T"
    (String h1 (String h2 (String ":"
    (String i1 (String i2 (String ":"
    (String s1 (String s2 (String "." (String "0" (String "0" (String "Z"
      EmptyString)))))))))))))))))))))) =>
      forallb is_digit [y1; y2; y3; y4; m1; m2; d1; d2; h1; h2; i1; i2; s1; s2]
  | _ => false
  end.

(** No space of [s] is followed by "E" or ends [s]: then " ET" occurs
    nowhere in [s], nor across the end of [s] when " ET" follows it. *)
Fixpoint no_space_E (s : string) : bool :=
  match s with
  | EmptyString => true
  | String c rest =>
      (if Ascii.eqb c " " then
         match rest with
         | String c2 _ => negb (Ascii.eqb c2 "E")
         | EmptyString => false
         end
       else true)
      && no_space_E rest
  end.

(** A child that the extraction keeps: not a heading, not a figure, with
    text, and not the boilerplate line. *)
Definition retained (el : Tag) : bool :=
  negb (String.eqb (name el) "h2") && negb (String.eqb (name el) "figure")
  && negb (String.eqb (text el) "") && negb (re_match_REGEX_PATTERN (text el)).

(** The texts of the children, each followed by a newline. *)
Fixpoint joined_text (els : list Tag) : string :=
  match els with
  | [] => ""
  | el :: rest => text el +:+ String "010" (joined_text rest)
  end.

(** The canonical text "YYYY-MM-DDTHH:MM:SS.00Z" of a datetime, the year
    in four digits with leading zeros. *)
Definition canonical_text (t : datetime) : string :=
  pad4 (year t) +:+ "-" +:+ pad2 (month t) +:+ "-" +:+ pad2 (day t) +:+ "T"
  +:+ pad2 (hour t) +:+ ":" +:+ pad2 (minute t) +:+ ":" +:+ pad2 (second t)
  +:+ ".00Z".

(** The year of the time four hours after a time of the site format: the
    next year from 8 PM of December 31 on. *)
Definition year_after_four_hours (y m d h12 : Z) (pm : bool) : Z :=
  if (m =? 12) && (d =? 31) && (20 <=? hour24 h12 pm) then y + 1 else y.

(** Text of code points below 128. *)
Fixpoint is_ascii_text (s : string) : bool :=
  match s with
  | EmptyString => true
  | String c rest => (N_of_ascii c <? 128)%N && is_ascii_text rest
  end.

(** ** A sample world

    At 2023-07-18 12:20:30.25 UTC the listing shows four links: two fresh
    articles, one eight days old, and a fresh one after it. *)
Definition sample_article (date_text : string) : Soup :=
  mkSoup (Some date_text) (Some "Stocks rise") (Some "By: Bob")
    (Some [mkTag "p" "A"; mkTag "figure" "chart";
           mkTag "p" "More on XYZ:"; mkTag "p" "B"])
    [].

Definition sample_listing : Soup :=
  mkSoup None None None None
    [mkAnchor (Some "/news/1"); mkAnchor (Some "/news/2");
     mkAnchor (Some "/news/3"); mkAnchor (Some "/news/4")].

Definition sample_world : World :=
  mkWorld
    (λ u,
       if String.eqb u "https://seekingalpha.com/market-news" then Ok sample_listing
       else if String.eqb u "https://seekingalpha.com/news/1"
            then Ok (sample_article "Jul. 18, 2023 8:13 AM ET")
       else if String.eqb u "https://seekingalpha.com/news/2"
            then Ok (sample_article "Jul. 18, 2023 8:05 AM ET")
       else if String.eqb u "https://seekingalpha.com/news/3"
            then Ok (sample_article "Jul. 10, 2023 4:30 PM ET")
       else if String.eqb u "https://seekingalpha.com/news/4"
            then Ok (sample_article "Jul. 18, 2023 8:01 AM ET")
       else if String.eqb u "https://seekingalpha.comhttps://seekingalpha.com/news/1"
            then Ok (sample_article "Jul. 18, 2023 8:13 AM ET")
       else Raise TransportError)
    (λ _, mkDatetime 2023 7 18 12 20 30 250000).

(* ================================================================== *)
(** * Properties *)

#[local] Arguments String.append !s1 s2 : simpl nomatch.

(** ** read_parameters *)

Lemma read_parameters_defaults (p : pyobj) :
  truthy p && isinstance_dict p = false →
  read_parameters p =
    (SInt DEFAULT_OLDNESS_SECONDS, SInt DEFAULT_MAXIMUM_ITEMS, SInt DEFAULT_MIN_POST_LENGTH).
Proof. unfold read_parameters. intros ->. reflexivity. Qed.

(** C9: [read_parameters] returns a triple for every argument.  A scalar
    (among them [None] and the empty string), a list and the empty dict
    give the defaults (360, 25, 10); a dict gives, for each of the three
    keys, its value when the key is present and the default otherwise. *)
Theorem C9_read_parameters_total :
  (∀ v, read_parameters (PScalar v) = (SInt 360, SInt 25, SInt 10))
  ∧ (∀ l, read_parameters (PList l) = (SInt 360, SInt 25, SInt 10))
  ∧ read_parameters (PDict ∅) = (SInt 360, SInt 25, SInt 10)
  ∧ ∀ d : gmap string scalar,
      read_parameters (PDict d) =
        (default (SInt 360) (d !! "max_oldness_seconds"),
         default (SInt 25) (d !! "maximum_items_to_collect"),
         default (SInt 10) (d !! "min_post_length")).
Proof.
  repeat split; try (intros; apply read_parameters_defaults; simpl;
                      try reflexivity; apply andb_false_r).
  intros d. unfold read_parameters. simpl.
  destruct (bool_decide (d = ∅)) eqn:E; simpl; [|reflexivity].
  apply bool_decide_eq_true in E. subst d.
  rewrite !lookup_empty. reflexivity.
Qed.

(** ** Body extraction *)

Lemma skip_word_all_word (w s : string) :
  all_word w = true → skip_word (w +:+ s) = skip_word s.
Proof.
  induction w as [|c w IH]; simpl; [reflexivity|].
  intros H. apply andb_true_iff in H as [Hc Hw]. rewrite Hc. auto.
Qed.

Lemma re_match_more_on (word tail : string) :
  word ≠ "" → all_word word = true →
  re_match_REGEX_PATTERN ("More on " +:+ word +:+ tail) = match_after_word (skip_word tail).
Proof.
  intros Hne Hw. destruct word as [|c word]; [done|].
  simpl in Hw. apply andb_true_iff in Hw as [Hc Hw].
  unfold re_match_REGEX_PATTERN. simpl. rewrite Hc. simpl.
  rewrite skip_word_all_word by assumption. reflexivity.
Qed.

Lemma string_app_empty_r (s : string) : s +:+ "" = s.
Proof. induction s as [|c s IH]; simpl; congruence. Qed.

Lemma content_loop_stop (pre post : list Tag) (el : Tag) (acc : string) :
  String.eqb (name el) "h2" = true
  ∨ (String.eqb (name el) "figure" = false ∧ String.eqb (text el) "" = false
     ∧ re_match_REGEX_PATTERN (text el) = true) →
  content_loop (pre ++ el :: post) acc = content_loop pre acc.
Proof.
  intros Hstop. revert acc.
  induction pre as [|x pre IH]; intros acc; simpl.
  - destruct Hstop as [-> | (-> & -> & ->)]; [reflexivity|].
    simpl. destruct (String.eqb (name el) "h2"); reflexivity.
  - repeat case_match; auto.
Qed.

(** C6: for the children p("A"), figure, p("More on XYZ:"), p("B") the
    extracted content is exactly "A" followed by a newline, whatever the
    figure holds. *)
Theorem C6_body_extraction_example (figure_text : string) :
  content_loop
    [mkTag "p" "A"; mkTag "figure" figure_text;
     mkTag "p" "More on XYZ:"; mkTag "p" "B"] ""
  = String "A" (String "010" "").
Proof. reflexivity. Qed.

(** C10: a child that is not a figure and whose whole text is "More on "
    followed by one word ends the extraction, with or without the colon
    after the word: both texts match the pattern, and nothing from that
    child or from a later one is appended. *)
Theorem C10_boilerplate_colon_optional
    (word : string) (el : Tag) (pre post : list Tag) (acc : string) :
  word ≠ "" → all_word word = true →
  name el ≠ "figure" →
  text el = "More on " +:+ word ∨ text el = "More on " +:+ word +:+ ":" →
  re_match_REGEX_PATTERN ("More on " +:+ word) = true
  ∧ re_match_REGEX_PATTERN ("More on " +:+ word +:+ ":") = true
  ∧ content_loop (pre ++ el :: post) acc = content_loop pre acc.
Proof.
  intros Hne Hw Hfig Htext.
  assert (H1 : re_match_REGEX_PATTERN ("More on " +:+ word) = true).
  { rewrite <- (string_app_empty_r word) at 1.
    rewrite re_match_more_on by assumption. reflexivity. }
  assert (H2 : re_match_REGEX_PATTERN ("More on " +:+ word +:+ ":") = true).
  { rewrite re_match_more_on by assumption. reflexivity. }
  split; [exact H1|]. split; [exact H2|].
  apply content_loop_stop. right.
  split; [apply String.eqb_neq; exact Hfig|].
  split; [destruct Htext as [-> | ->]; reflexivity|].
  destruct Htext as [-> | ->]; assumption.
Qed.

Lemma C10_boilerplate_colon_optional_witness :
  content_loop
    ([mkTag "p" "A"] ++ mkTag "p" "More on XYZ" :: [mkTag "p" "B"]) ""
  = content_loop [mkTag "p" "A"] "".
Proof.
  apply (C10_boilerplate_colon_optional "XYZ" (mkTag "p" "More on XYZ")
           [mkTag "p" "A"] [mkTag "p" "B"] "").
  - discriminate.
  - reflexivity.
  - discriminate.
  - left. reflexivity.
Defined.

(** ** The article extractor *)

Lemma rbind_Ok {A B} (r : result A) (k : A → result B) (b : B) :
  (r ≫= k) = Ok b → ∃ a, r = Ok a ∧ k a = Ok b.
Proof. destruct r as [a|e]; simpl; [eauto | discriminate]. Qed.

Lemma deref_Ok {A} (o : option A) (a : A) : deref o = Ok a → o = Some a.
Proof. destruct o; simpl; congruence. Qed.

(** What a produced record is made of. *)
Lemma request_content_Some (w : World) (u : string) (a : scalar) (item : Item) :
  request_content_with_timeout w u a = Some item →
  ∃ soup date_text post_date post_title author_text paragraphs,
    http_get w u = Ok soup
    ∧ find_post_date soup = Some date_text
    ∧ convert_date_to_standard_format date_text = Ok post_date
    ∧ check_for_max_age (utcnow w u) post_date a = Ok true
    ∧ find_post_title soup = Some post_title
    ∧ find_post_author_nick soup = Some author_text
    ∧ find_content_container soup = Some paragraphs
    ∧ item = mkItem post_title (content_loop paragraphs "")
               (lstrip author_text "By: ") post_date u "seekingalpha.com".
Proof.
  unfold request_content_with_timeout, try_except.
  destruct (request_content_body w u a) as [v|e] eqn:E; [|discriminate].
  intros ->. unfold request_content_body in E.
  apply rbind_Ok in E as (soup & Hget & E).
  apply rbind_Ok in E as (date_text & Hdate & E). apply deref_Ok in Hdate.
  apply rbind_Ok in E as (post_date & Hconv & E).
  apply rbind_Ok in E as (fresh & Hfresh & E).
  destruct fresh; simpl in E; [|discriminate].
  apply rbind_Ok in E as (post_title & Htitle & E). apply deref_Ok in Htitle.
  apply rbind_Ok in E as (author_text & Hauthor & E). apply deref_Ok in Hauthor.
  apply rbind_Ok in E as (paragraphs & Hcont & E). apply deref_Ok in Hcont.
  injection E as <-.
  exists soup, date_text, post_date, post_title, author_text, paragraphs.
  repeat split; assumption.
Qed.

Lemma request_content_url (w : World) (u : string) (a : scalar) (item : Item) :
  request_content_with_timeout w u a = Some item → url item = u.
Proof.
  intros H. apply request_content_Some in H
    as (? & ? & ? & ? & ? & ? & _ & _ & _ & _ & _ & _ & _ & ->).
  reflexivity.
Qed.

(** The author of a record is the author text of the page after
    [lstrip("By: ")]. *)
Lemma request_content_author (w : World) (u : string) (a : scalar) (item : Item) :
  request_content_with_timeout w u a = Some item →
  ∃ soup author_text,
    http_get w u = Ok soup ∧ find_post_author_nick soup = Some author_text
    ∧ author item = lstrip author_text "By: ".
Proof.
  intros H. apply request_content_Some in H
    as (soup & ? & ? & ? & author_text & ? & Hget & _ & _ & _ & _ & Ha & _ & ->).
  exists soup, author_text. auto.
Qed.

(** C2: on the claim's own example the code does not give what the claim
    says.  The article at /news/1 of the sample world is fetched
    successfully and its author text is "By: Bob"; the author of the record
    is "ob", not "Bob": [lstrip("By: ")] removes every leading character
    that occurs in "By: ", the "B" of "Bob" among them. *)
Theorem C2_author_lstrip_takes_characters :
  find_post_author_nick <$> http_get sample_world "https://seekingalpha.com/news/1"
    = Ok (Some "By: Bob")
  ∧ author <$> request_content_with_timeout sample_world
                 "https://seekingalpha.com/news/1" (SInt 12000) = Some "ob"
  ∧ spec_strip_label "By: " "By: Bob" = "Bob".
Proof. vm_compute. auto. Qed.

(** ** The listing scanner *)

Lemma yielded_gen_try_except (g : generated) :
  yielded (gen_try_except g) = yielded g.
Proof. unfold gen_try_except. destruct (ending g); reflexivity. Qed.

Lemma ending_gen_try_except (g : generated) : ending (gen_try_except g) = Ok tt.
Proof.
  unfold gen_try_except. destruct (ending g) as [[]|e] eqn:E; [exact E | reflexivity].
Qed.

Lemma parse_entry_loop_cons (w : World) (a : scalar) (c : Anchor) (cards : list Anchor) :
  yielded (parse_entry_loop w (c :: cards) a) =
    match record_of w a c with
    | Some item => item :: yielded (parse_entry_loop w cards a)
    | None => []
    end.
Proof.
  unfold record_of. simpl. unfold getitem_href.
  destruct (href c) as [h|]; simpl; [|reflexivity].
  destruct (request_content_with_timeout w (article_url h) a); reflexivity.
Qed.

Lemma parse_entry_loop_length (w : World) (a : scalar) (cards : list Anchor) :
  (length (yielded (parse_entry_loop w cards a)) ≤ length cards)%nat.
Proof.
  induction cards as [|c cards IH]; [reflexivity|].
  rewrite parse_entry_loop_cons. destruct (record_of w a c); simpl; lia.
Qed.

Lemma parse_entry_loop_prefix (w : World) (a : scalar)
    (pre post : list Anchor) (c : Anchor) (items : list Item) :
  mapM (record_of w a) pre = Some items →
  record_of w a c = None →
  yielded (parse_entry_loop w (pre ++ c :: post) a) = items.
Proof.
  intros Hpre Hc. apply mapM_Some in Hpre.
  induction Hpre as [|x item pre items Hx _ IH]; simpl app;
    rewrite parse_entry_loop_cons.
  - rewrite Hc. reflexivity.
  - rewrite Hx, IH. reflexivity.
Qed.

Lemma parse_entry_loop_all (w : World) (a : scalar)
    (cards : list Anchor) (items : list Item) :
  mapM (record_of w a) cards = Some items →
  yielded (parse_entry_loop w cards a) = items.
Proof.
  intros H. apply mapM_Some in H.
  induction H as [|c item cards items Hc _ IH]; [reflexivity|].
  rewrite parse_entry_loop_cons, Hc, IH. reflexivity.
Qed.

(** Every listing either gives a record for each link or has a first link
    that gives none. *)
Lemma first_gap_or_none (w : World) (a : scalar) (cards : list Anchor) :
  (∃ items, mapM (record_of w a) cards = Some items)
  ∨ (∃ pre c post items,
       cards = pre ++ c :: post
       ∧ mapM (record_of w a) pre = Some items
       ∧ record_of w a c = None).
Proof.
  induction cards as [|c cards IH].
  - left. exists []. reflexivity.
  - destruct (record_of w a c) as [item|] eqn:Ec.
    + destruct IH as [(items & H) | (pre & c' & post & items & -> & H & Hc')].
      * left. exists (item :: items). apply mapM_Some. apply mapM_Some in H.
        constructor; assumption.
      * right. exists (c :: pre), c', post, (item :: items).
        split; [reflexivity|]. split; [|exact Hc'].
        apply mapM_Some. apply mapM_Some in H. constructor; assumption.
    + right. exists [], c, cards, []. split; [reflexivity|].
      split; [reflexivity | exact Ec].
Qed.

(** C3: for every list of links the scanner yields at most one record per
    link.  It yields the records of the links in document order: all of
    them when every link gives a record, and otherwise exactly those of the
    links [pre] before the first link [c] that gives none, whatever links
    [post] come after it and whatever they would give.  One of the two
    cases always applies. *)
Theorem C3_scanner_stops_at_first_gap (w : World) (_max_age : scalar)
    (_cards : list Anchor) :
  (length (yielded (parse_entry_for_elements w _cards _max_age)) ≤ length _cards)%nat
  ∧ (∀ items : list Item,
       mapM (record_of w _max_age) _cards = Some items →
       yielded (parse_entry_for_elements w _cards _max_age) = items)
  ∧ (∀ (pre post : list Anchor) (c : Anchor) (items : list Item),
       _cards = pre ++ c :: post →
       mapM (record_of w _max_age) pre = Some items →
       record_of w _max_age c = None →
       yielded (parse_entry_for_elements w _cards _max_age) = items)
  ∧ ((∃ items, mapM (record_of w _max_age) _cards = Some items)
     ∨ (∃ pre c post items,
          _cards = pre ++ c :: post
          ∧ mapM (record_of w _max_age) pre = Some items
          ∧ record_of w _max_age c = None)).
Proof.
  unfold parse_entry_for_elements. rewrite !yielded_gen_try_except.
  split; [apply parse_entry_loop_length|].
  split; [intros items H; apply parse_entry_loop_all, H|].
  split; [|apply first_gap_or_none].
  intros pre post c items -> Hpre Hc.
  eapply parse_entry_loop_prefix; eassumption.
Qed.

(** In the sample world the link /news/3 is stale: the scanner yields the
    records of /news/1 and /news/2 and not that of the fresh /news/4. *)
Lemma C3_scanner_stops_at_first_gap_witness :
  map url (yielded (parse_entry_for_elements sample_world
                      (find_all_post_list_item_title sample_listing) (SInt 12000)))
  = ["https://seekingalpha.com/news/1"; "https://seekingalpha.com/news/2"]
  ∧ is_Some (record_of sample_world (SInt 12000) (mkAnchor (Some "/news/4"))).
Proof.
  pose proof (C3_scanner_stops_at_first_gap sample_world (SInt 12000)
    (find_all_post_list_item_title sample_listing)) as (_ & _ & H & _).
  specialize (H [mkAnchor (Some "/news/1"); mkAnchor (Some "/news/2")]
    [mkAnchor (Some "/news/4")] (mkAnchor (Some "/news/3"))
    (default [] (mapM (record_of sample_world (SInt 12000))
                   [mkAnchor (Some "/news/1"); mkAnchor (Some "/news/2")]))
    eq_refl).
  rewrite H; [| vm_compute; reflexivity | vm_compute; reflexivity].
  split; [vm_compute; reflexivity | vm_compute; eauto].
Defined.

(** The scanner never yields more records than there are links. *)
Lemma parse_entry_for_elements_length (w : World) (a : scalar) (cards : list Anchor) :
  (length (yielded (parse_entry_for_elements w cards a)) ≤ length cards)%nat.
Proof.
  unfold parse_entry_for_elements. rewrite yielded_gen_try_except.
  apply parse_entry_loop_length.
Qed.

Lemma parse_entry_loop_urls (w : World) (a : scalar) (cards : list Anchor) :
  Forall2 (λ item card, article_url <$> href card = Some (url item))
    (yielded (parse_entry_loop w cards a))
    (take (length (yielded (parse_entry_loop w cards a))) cards).
Proof.
  induction cards as [|c cards IH]; [constructor|].
  rewrite parse_entry_loop_cons. unfold record_of.
  destruct (href c) as [h|] eqn:Eh; simpl; [|constructor].
  destruct (request_content_with_timeout w (article_url h) a) as [item|] eqn:E;
    simpl; [|constructor].
  constructor; [|exact IH].
  rewrite Eh. simpl. f_equal. symmetry. eapply request_content_url, E.
Qed.

(** C7, as the code has it: the URL handed to the extractor, which is the
    [url] of the record, is the site origin followed by the href of the
    link, for every href; no href is used unchanged. *)
Theorem C7_article_url_always_prefixed (w : World) (_max_age : scalar)
    (_cards : list Anchor) :
  Forall2 (λ item card, article_url <$> href card = Some (url item))
    (yielded (parse_entry_for_elements w _cards _max_age))
    (take (length (yielded (parse_entry_for_elements w _cards _max_age))) _cards)
  ∧ ∀ h : string, article_url h = "https://seekingalpha.com" +:+ h.
Proof.
  split; [|reflexivity].
  unfold parse_entry_for_elements. rewrite yielded_gen_try_except.
  apply parse_entry_loop_urls.
Qed.

(** An absolute href is not used unchanged: the origin is prefixed to it as
    to any other. *)
Lemma C7_absolute_href_counterexample :
  is_absolute "https://seekingalpha.com/news/1" = true
  ∧ map url (yielded (parse_entry_for_elements sample_world
                        [mkAnchor (Some "https://seekingalpha.com/news/1")]
                        (SInt 12000)))
    = ["https://seekingalpha.comhttps://seekingalpha.com/news/1"]
  ∧ article_url "https://seekingalpha.com/news/1"
    ≠ spec_article_url "https://seekingalpha.com/news/1".
Proof. vm_compute. repeat split; discriminate. Qed.

(** ** The pipeline *)

(** With a cap of at least one, the count and the cap bound what is
    yielded. *)
Lemma query_loop_length (items : list Item) (e : result unit) (n cap : Z) :
  n < cap →
  Z.of_nat (length (yielded (query_loop items e n (SInt cap)))) ≤ cap - n.
Proof.
  revert n. induction items as [|item items IH]; intros n Hn; simpl; [lia|].
  destruct (cap <=? n + 1) eqn:E; simpl.
  - lia.
  - apply Z.leb_gt in E. specialize (IH (n + 1) E). lia.
Qed.

(** The check of the cap comes after the yield: the first record of the
    scanner is yielded whatever the cap. *)
Lemma query_loop_first (item : Item) (items : list Item) (e : result unit)
    (cap : scalar) :
  ∃ rest, yielded (query_loop (item :: items) e 0 cap) = item :: rest.
Proof.
  simpl. destruct (as_number cap) as [c|]; simpl.
  - destruct (c <=? 0 + 1); simpl; eauto.
  - eauto.
Qed.

Lemma query_loop_ending (items : list Item) (n cap : Z) (c : scalar) :
  as_number c = Ok cap → ending (query_loop items (Ok tt) n c) = Ok tt.
Proof.
  intros Hc. revert n. induction items as [|item items IH]; intros n; simpl.
  - reflexivity.
  - rewrite Hc. destruct (cap <=? n + 1); simpl; auto.
Qed.

Lemma request_entries_ending (w : World) (u : string) (a : scalar) :
  ending (request_entries_with_timeout w u a) = Ok tt.
Proof. apply ending_gen_try_except. Qed.

Lemma request_entries_unreachable (w : World) (u : string) (a : scalar) (e : exn) :
  http_get w u = Raise e → yielded (request_entries_with_timeout w u a) = [].
Proof.
  intros H. unfold request_entries_with_timeout.
  rewrite yielded_gen_try_except, H. reflexivity.
Qed.

(** The records of the pipeline, from the three settings and the scanner. *)
Lemma query_unfold (w : World) (parameters : pyobj) :
  query w parameters =
    let inner := request_entries_with_timeout w url_main_endpoint
                   (read_parameters parameters).1.1 in
    query_loop (yielded inner) (ending inner) 0 (read_parameters parameters).1.2.
Proof.
  unfold query. destruct (read_parameters parameters) as [[a b] c]. reflexivity.
Qed.

(** For a cap of one or more the pipeline yields at most that many
    records, and it yields none when the scanner yields none. *)
Lemma query_at_most_cap (w : World) (parameters : pyobj) (cap : Z) :
  (read_parameters parameters).1.2 = SInt cap → 1 ≤ cap →
  Z.of_nat (length (yielded (query w parameters))) ≤ cap.
Proof.
  intros Hcap Hpos. rewrite query_unfold. simpl. rewrite Hcap.
  pose proof (query_loop_length
    (yielded (request_entries_with_timeout w url_main_endpoint
                (read_parameters parameters).1.1))
    (ending (request_entries_with_timeout w url_main_endpoint
                (read_parameters parameters).1.1)) 0 cap) as H.
  lia.
Qed.

Lemma query_scanner_empty (w : World) (parameters : pyobj) :
  yielded (request_entries_with_timeout w url_main_endpoint
             (read_parameters parameters).1.1) = [] →
  yielded (query w parameters) = [].
Proof. intros H. rewrite query_unfold. simpl. rewrite H. reflexivity. Qed.

(** C1: with maximum_items_to_collect = 0 the pipeline yields one record
    where the claim allows none: in the sample world, with articles up to
    12000 seconds old admitted, the scanner yields two records and the
    pipeline, with a cap of 0, yields the first of them. *)
Theorem C1_cap_zero_yields_one :
  let parameters :=
    PDict {[ "max_oldness_seconds" := SInt 12000;
             "maximum_items_to_collect" := SInt 0 ]} in
  (read_parameters parameters).1.2 = SInt 0
  ∧ map url (yielded (query sample_world parameters))
    = ["https://seekingalpha.com/news/1"].
Proof. vm_compute. auto. Qed.

(** C8: with a cap that is a number, no exception leaves the pipeline,
    whatever the network gives: the pipeline ends normally; an exception in
    the extraction of an article turns into no record for that article; the
    scanner and the listing fetch end normally; and an unreachable listing
    page or a first link without a record leaves the pipeline with no
    record. *)
Theorem C8_query_never_raises (w : World) (parameters : pyobj) (cap : Z) :
  as_number (read_parameters parameters).1.2 = Ok cap →
  ending (query w parameters) = Ok tt
  ∧ (∀ u a e, request_content_body w u a = Raise e →
              request_content_with_timeout w u a = None)
  ∧ (∀ cards a, ending (parse_entry_for_elements w cards a) = Ok tt)
  ∧ (∀ u a, ending (request_entries_with_timeout w u a) = Ok tt)
  ∧ (∀ e, http_get w url_main_endpoint = Raise e →
          yielded (query w parameters) = [])
  ∧ (∀ soup c cards,
       http_get w url_main_endpoint = Ok soup →
       find_all_post_list_item_title soup = c :: cards →
       record_of w (read_parameters parameters).1.1 c = None →
       yielded (query w parameters) = []).
Proof.
  intros Hcap. repeat split.
  - rewrite query_unfold. simpl. rewrite request_entries_ending.
    eapply query_loop_ending, Hcap.
  - intros u a e H. unfold request_content_with_timeout. rewrite H. reflexivity.
  - intros. apply ending_gen_try_except.
  - intros. apply request_entries_ending.
  - intros e H. apply query_scanner_empty.
    eapply request_entries_unreachable, H.
  - intros soup c cards Hget Hall Hc. apply query_scanner_empty.
    unfold request_entries_with_timeout, parse_entry_for_elements.
    rewrite !yielded_gen_try_except, Hget, yielded_gen_try_except, Hall.
    rewrite parse_entry_loop_cons, Hc. reflexivity.
Qed.

(** A world whose network is down, with the default settings. *)
Lemma C8_query_never_raises_witness :
  query (mkWorld (λ _, Raise TransportError) (utcnow sample_world)) (PScalar SNone)
  = mkGenerated [] (Ok tt).
Proof.
  pose proof (C8_query_never_raises
    (mkWorld (λ _, Raise TransportError) (utcnow sample_world))
    (PScalar SNone) 25 eq_refl) as (Hend & _ & _ & _ & Hnone & _).
  specialize (Hnone TransportError eq_refl).
  destruct (query _ _) as [ys e]. simpl in *. subst. reflexivity.
Defined.

(** A cap that is not a number is compared only after the first record has
    been yielded, and the comparison raises. *)
Example query_cap_not_a_number :
  ending (query sample_world
            (PDict {[ "max_oldness_seconds" := SInt 12000;
                      "maximum_items_to_collect" := SStr "ten" ]}))
  = Raise TypeError.
Proof. vm_compute. reflexivity. Qed.

(** ** The calendar *)

Lemma days_in_month_bounds (y m : Z) : 28 ≤ days_in_month y m ≤ 31.
Proof. unfold days_in_month. repeat case_match; lia. Qed.

Lemma valid_date_spec (y m d : Z) :
  valid_date y m d = true ↔
  1 ≤ y ≤ 9999 ∧ 1 ≤ m ≤ 12 ∧ 1 ≤ d ≤ days_in_month y m.
Proof. unfold valid_date, MINYEAR, MAXYEAR. rewrite !andb_true_iff, !Z.leb_le. lia. Qed.

Lemma valid_time_spec (h mi s us : Z) :
  valid_time h mi s us = true ↔
  0 ≤ h ≤ 23 ∧ 0 ≤ mi ≤ 59 ∧ 0 ≤ s ≤ 59 ∧ 0 ≤ us ≤ 999999.
Proof. unfold valid_time. rewrite !andb_true_iff, !Z.leb_le. lia. Qed.

(** One more day in the year before [y + 1] when [y] is a leap year. *)
Lemma days_before_year_succ (y : Z) :
  1 ≤ y →
  days_before_year (y + 1) = days_before_year y + 365 + (if is_leap y then 1 else 0).
Proof.
  intros Hy. unfold days_before_year, is_leap.
  replace (y + 1 - 1) with y by lia.
  destruct (y mod 4 =? 0) eqn:E4; destruct (y mod 100 =? 0) eqn:E100;
    destruct (y mod 400 =? 0) eqn:E400; simpl;
    rewrite ?Z.eqb_eq, ?Z.eqb_neq in *;
    Z.to_euclidean_division_equations; lia.
Qed.

Lemma days_before_month_succ (y m : Z) :
  1 ≤ m ≤ 11 →
  days_before_month y (m + 1) = days_before_month y m + days_in_month y m.
Proof.
  intros Hm.
  assert (m = 1 ∨ m = 2 ∨ m = 3 ∨ m = 4 ∨ m = 5 ∨ m = 6 ∨ m = 7 ∨ m = 8
          ∨ m = 9 ∨ m = 10 ∨ m = 11) as Hc by lia.
  unfold days_before_month, days_in_month.
  destruct (is_leap y);
    repeat (destruct Hc as [-> | Hc]; [reflexivity|]); subst m; reflexivity.
Qed.

Lemma date_succ_ok (y m d : Z) :
  valid_date y m d = true →
  ¬ (y = 9999 ∧ m = 12 ∧ d = 31) →
  ∃ y' m' d', date_succ (y, m, d) = Ok (y', m', d')
    ∧ valid_date y' m' d' = true
    ∧ ymd2ord y' m' d' = ymd2ord y m d + 1.
Proof.
  intros Hv Hlast. apply valid_date_spec in Hv as (Hy & Hm & Hd).
  unfold date_succ.
  destruct (d <? days_in_month y m) eqn:Ed.
  - apply Z.ltb_lt in Ed. exists y, m, (d + 1).
    split; [reflexivity|]. split; [apply valid_date_spec; lia|].
    unfold ymd2ord. lia.
  - apply Z.ltb_ge in Ed. assert (d = days_in_month y m) as -> by lia.
    destruct (m <? 12) eqn:Em.
    + apply Z.ltb_lt in Em. exists y, (m + 1), 1.
      split; [reflexivity|].
      split; [apply valid_date_spec; pose proof (days_in_month_bounds y (m + 1)); lia|].
      unfold ymd2ord. rewrite days_before_month_succ by lia. lia.
    + apply Z.ltb_ge in Em. assert (m = 12) as -> by lia.
      change (days_in_month y 12) with 31 in *.
      unfold MAXYEAR. destruct (y <? 9999) eqn:Ey.
      * apply Z.ltb_lt in Ey. exists (y + 1), 1, 1.
        split; [reflexivity|].
        split; [apply valid_date_spec; pose proof (days_in_month_bounds (y + 1) 1); lia|].
        unfold ymd2ord. rewrite days_before_year_succ by lia.
        unfold days_before_month. simpl. destruct (is_leap y), (is_leap (y + 1)); lia.
      * apply Z.ltb_ge in Ey. lia.
Qed.

(** Four hours on: the same fields four hours later on the scale of
    [to_seconds], unless that leaves year 9999. *)
Lemma add_hours_4_ok (t : datetime) :
  valid_datetime t = true →
  ¬ (year t = 9999 ∧ month t = 12 ∧ day t = 31 ∧ 20 ≤ hour t) →
  ∃ t', add_hours t 4 = Ok t'
    ∧ valid_datetime t' = true
    ∧ to_seconds t' = to_seconds t + 4 * 3600
    ∧ microsecond t' = microsecond t.
Proof.
  intros Hv Hlast. unfold valid_datetime in Hv.
  apply andb_true_iff in Hv as [Hd Ht].
  pose proof Ht as Ht'. apply valid_time_spec in Ht' as (Hh & Hmi & Hs & Hus).
  unfold add_hours.
  destruct (Z_lt_le_dec (hour t) 20) as [Hlt | Hge].
  - replace ((hour t + 4) / 24) with 0 by (symmetry; apply Z.div_small; lia).
    rewrite Z.mod_small by lia. simpl.
    eexists. split; [reflexivity|]. unfold valid_datetime, to_seconds. simpl.
    split; [rewrite Hd; apply valid_time_spec; lia|]. split; [lia | reflexivity].
  - replace ((hour t + 4) / 24) with 1
      by (apply (Z.div_unique _ _ _ (hour t + 4 - 24)); lia).
    replace ((hour t + 4) mod 24) with (hour t + 4 - 24)
      by (apply (Z.mod_unique _ _ 1); lia).
    destruct (date_succ_ok _ _ _ Hd) as (y' & m' & d' & Hs' & Hv' & Ho); [lia|].
    change (Z.to_nat 1) with 1%nat. cbn [add_days]. rewrite Hs'. simpl.
    eexists. split; [reflexivity|]. unfold valid_datetime, to_seconds. simpl.
    split; [rewrite Hv'; apply valid_time_spec; lia|].
    split; [rewrite Ho; lia | reflexivity].
Qed.

Lemma add_hours_4_overflow (t : datetime) :
  year t = 9999 → month t = 12 → day t = 31 → 20 ≤ hour t ≤ 23 →
  add_hours t 4 = Raise OverflowError.
Proof.
  intros Hy Hm Hd Hh. unfold add_hours.
  replace ((hour t + 4) / 24) with 1
    by (apply (Z.div_unique _ _ _ (hour t + 4 - 24)); lia).
  rewrite Hy, Hm, Hd. reflexivity.
Qed.

(** ** Digits and fields *)

Lemma digit_val_digit_char (n : Z) : 0 ≤ n ≤ 9 → digit_val (digit_char n) = Some n.
Proof.
  intros H.
  assert (n = 0 ∨ n = 1 ∨ n = 2 ∨ n = 3 ∨ n = 4 ∨ n = 5 ∨ n = 6 ∨ n = 7
          ∨ n = 8 ∨ n = 9) as Hc by lia.
  repeat (destruct Hc as [-> | Hc]; [reflexivity|]). subst n. reflexivity.
Qed.

(** Every [digit_char] is the character of one of the ten digits. *)
Lemma digit_char_cases (n : Z) :
  ∃ k, 0 ≤ k ≤ 9 ∧ digit_char n = digit_char k.
Proof.
  exists (n mod 10). split; [pose proof (Z.mod_pos_bound n 10); lia|].
  unfold digit_char. rewrite Z.mod_mod by lia. reflexivity.
Qed.

Lemma digit_char_is_digit (n : Z) : is_digit (digit_char n) = true.
Proof.
  destruct (digit_char_cases n) as (k & Hk & ->).
  unfold is_digit. rewrite digit_val_digit_char by assumption. reflexivity.
Qed.

Lemma is_digit_not_space (c : ascii) : is_digit c = true → is_space c = false.
Proof.
  destruct c as [[] [] [] [] [] [] [] []]; try reflexivity; discriminate.
Qed.

Lemma two_digits_pad (v : Z) :
  0 ≤ v ≤ 99 → two_digits (digit_char (v / 10)) (digit_char (v mod 10)) = Some v.
Proof.
  intros H. unfold two_digits.
  rewrite !digit_val_digit_char by (Z.to_euclidean_division_equations; lia).
  simpl. f_equal. Z.to_euclidean_division_equations; lia.
Qed.

Lemma parse_1or2_pad2 (two one : Z → bool) (v : Z) (rest : string) :
  0 ≤ v ≤ 99 → two v = true →
  parse_1or2 two one (pad2 v +:+ rest) = Some (v, rest).
Proof.
  intros Hv Htwo. unfold pad2. simpl. rewrite two_digits_pad by assumption.
  rewrite Htwo. reflexivity.
Qed.

Lemma parse_1or2_unpadded (two one : Z → bool) (v : Z) (c : ascii) (rest : string) :
  0 ≤ v ≤ 99 → is_digit c = false →
  (if v <? 10 then one v else two v) = true →
  parse_1or2 two one (unpadded v +:+ String c rest) = Some (v, String c rest).
Proof.
  intros Hv Hc Hok. unfold unpadded. destruct (v <? 10) eqn:E.
  - apply Z.ltb_lt in E. simpl. unfold two_digits.
    rewrite digit_val_digit_char by lia. simpl.
    unfold is_digit in Hc. destruct (digit_val c); [discriminate|]. simpl.
    rewrite Hok. reflexivity.
  - apply parse_1or2_pad2; assumption.
Qed.

Lemma parse_Y_pad4 (y : Z) (rest : string) :
  0 ≤ y ≤ 9999 → parse_Y (pad4 y +:+ rest) = Some (y, rest).
Proof.
  intros Hy. unfold pad4, pad2. simpl.
  rewrite !two_digits_pad by (Z.to_euclidean_division_equations; lia).
  simpl. f_equal. f_equal. Z.to_euclidean_division_equations; lia.
Qed.

Lemma parse_b_month_abbr (m : Z) (rest : string) :
  1 ≤ m ≤ 12 → parse_b (month_abbr m +:+ rest) = Some (m, rest).
Proof.
  intros Hm.
  assert (m = 1 ∨ m = 2 ∨ m = 3 ∨ m = 4 ∨ m = 5 ∨ m = 6 ∨ m = 7 ∨ m = 8
          ∨ m = 9 ∨ m = 10 ∨ m = 11 ∨ m = 12) as Hc by lia.
  repeat (destruct Hc as [-> | Hc]; [reflexivity|]). subst m. reflexivity.
Qed.

Lemma unpadded_head (v : Z) (rest : string) :
  ∃ c tail, unpadded v +:+ rest = String c tail ∧ is_digit c = true.
Proof.
  unfold unpadded, pad2. destruct (v <? 10); simpl;
    eexists _, _; (split; [reflexivity | apply digit_char_is_digit]).
Qed.

Lemma parse_space_one (c : ascii) (tail : string) :
  is_digit c = true → parse_space (String " " (String c tail)) = Some (String c tail).
Proof.
  intros Hc. simpl. rewrite (is_digit_not_space c Hc). reflexivity.
Qed.

(** ** Running the directives of a format *)

Lemma eqb_nocase_refl (c : ascii) : eqb_nocase c c = true.
Proof. apply Ascii.eqb_refl. Qed.

Lemma run_DLit (c : ascii) (ds : list directive) (rest : string) (acc : parsed) :
  run_directives (DLit c :: ds) (String c rest) acc = run_directives ds rest acc.
Proof. simpl. rewrite eqb_nocase_refl. reflexivity. Qed.

Lemma run_DSpace (c : ascii) (ds : list directive) (tail : string) (acc : parsed) :
  is_digit c = true →
  run_directives (DSpace :: ds) (String " " (String c tail)) acc
  = run_directives ds (String c tail) acc.
Proof.
  intros Hc. cbn [run_directives run_directive].
  rewrite parse_space_one by assumption. reflexivity.
Qed.

Lemma run_DY (y : Z) (ds : list directive) (rest : string) (acc : parsed) :
  0 ≤ y ≤ 9999 →
  run_directives (DY :: ds) (pad4 y +:+ rest) acc
  = run_directives ds rest
      (mkParsed y (p_month acc) (p_day acc) (p_hour acc) (p_hour12 acc)
         (p_pm acc) (p_minute acc) (p_second acc)).
Proof.
  intros Hy. cbn [run_directives run_directive].
  rewrite parse_Y_pad4 by assumption. reflexivity.
Qed.

Lemma run_Dm (v : Z) (ds : list directive) (rest : string) (acc : parsed) :
  1 ≤ v ≤ 12 →
  run_directives (Dm :: ds) (pad2 v +:+ rest) acc
  = run_directives ds rest
      (mkParsed (p_year acc) v (p_day acc) (p_hour acc) (p_hour12 acc)
         (p_pm acc) (p_minute acc) (p_second acc)).
Proof.
  intros Hv. cbn [run_directives run_directive]. unfold parse_m.
  rewrite parse_1or2_pad2; [reflexivity | lia | unfold between; lia].
Qed.

Lemma run_Dd (v : Z) (ds : list directive) (rest : string) (acc : parsed) :
  1 ≤ v ≤ 31 →
  run_directives (Dd :: ds) (pad2 v +:+ rest) acc
  = run_directives ds rest
      (mkParsed (p_year acc) (p_month acc) v (p_hour acc) (p_hour12 acc)
         (p_pm acc) (p_minute acc) (p_second acc)).
Proof.
  intros Hv. cbn [run_directives run_directive]. unfold parse_d.
  rewrite parse_1or2_pad2; [reflexivity | lia | unfold between; lia].
Qed.

Lemma run_DH (v : Z) (ds : list directive) (rest : string) (acc : parsed) :
  0 ≤ v ≤ 23 →
  run_directives (DH :: ds) (pad2 v +:+ rest) acc
  = run_directives ds rest
      (mkParsed (p_year acc) (p_month acc) (p_day acc) v (p_hour12 acc)
         (p_pm acc) (p_minute acc) (p_second acc)).
Proof.
  intros Hv. cbn [run_directives run_directive]. unfold parse_H.
  rewrite parse_1or2_pad2; [reflexivity | lia | unfold between; lia].
Qed.

Lemma run_DM (v : Z) (ds : list directive) (rest : string) (acc : parsed) :
  0 ≤ v ≤ 59 →
  run_directives (DM :: ds) (pad2 v +:+ rest) acc
  = run_directives ds rest
      (mkParsed (p_year acc) (p_month acc) (p_day acc) (p_hour acc) (p_hour12 acc)
         (p_pm acc) v (p_second acc)).
Proof.
  intros Hv. cbn [run_directives run_directive]. unfold parse_M.
  rewrite parse_1or2_pad2; [reflexivity | lia | unfold between; lia].
Qed.

Lemma run_DS (v : Z) (ds : list directive) (rest : string) (acc : parsed) :
  0 ≤ v ≤ 59 →
  run_directives (DS :: ds) (pad2 v +:+ rest) acc
  = run_directives ds rest
      (mkParsed (p_year acc) (p_month acc) (p_day acc) (p_hour acc) (p_hour12 acc)
         (p_pm acc) (p_minute acc) v).
Proof.
  intros Hv. cbn [run_directives run_directive]. unfold parse_S.
  rewrite parse_1or2_pad2; [reflexivity | lia | unfold between; lia].
Qed.

(** What the module writes for a datetime. *)
Lemma strftime_canonical (t : datetime) :
  strftime t CANONICAL_FORMAT =
    year_text (year t) +:+ String "-" (pad2 (month t) +:+ String "-" (pad2 (day t)
    +:+ String "T" (pad2 (hour t) +:+ String ":" (pad2 (minute t)
    +:+ String ":" (pad2 (second t) +:+ ".00Z"))))).
Proof. reflexivity. Qed.

Lemma canonical_text_eq (t : datetime) :
  canonical_text t =
    pad4 (year t) +:+ String "-" (pad2 (month t) +:+ String "-" (pad2 (day t)
    +:+ String "T" (pad2 (hour t) +:+ String ":" (pad2 (minute t)
    +:+ String ":" (pad2 (second t) +:+ ".00Z"))))).
Proof. reflexivity. Qed.

Lemma year_text_pad4 (y : Z) : 1000 ≤ y → year_text y = pad4 y.
Proof.
  intros H. unfold year_text.
  destruct (y <? 10) eqn:E1; [apply Z.ltb_lt in E1; lia|].
  destruct (y <? 100) eqn:E2; [apply Z.ltb_lt in E2; lia|].
  destruct (y <? 1000) eqn:E3; [apply Z.ltb_lt in E3; lia|].
  reflexivity.
Qed.

(** From year 1000 on the module writes the canonical text. *)
Lemma strftime_canonical_text (t : datetime) :
  1000 ≤ year t → strftime t CANONICAL_FORMAT = canonical_text t.
Proof.
  intros H. rewrite strftime_canonical, canonical_text_eq, year_text_pad4 by assumption.
  reflexivity.
Qed.

Lemma compile_canonical :
  compile_format false CANONICAL_FORMAT =
    Ok [DY; DLit "-"; Dm; DLit "-"; Dd; DLit "T"; DH; DLit ":"; DM; DLit ":";
        DS; DLit "."; DLit "0"; DLit "0"; DLit "Z"].
Proof. reflexivity. Qed.

Lemma compile_site :
  compile_format false SITE_FORMAT =
    Ok [Db; DLit "."; DSpace; Dd; DLit ","; DSpace; DY; DSpace; DI; DLit ":";
        DM; DSpace; Dp].
Proof. reflexivity. Qed.

(** Parsing the canonical text of a valid datetime gives its fields back,
    without the microseconds. *)
Lemma strptime_canonical_text (t : datetime) :
  valid_datetime t = true →
  strptime (canonical_text t) CANONICAL_FORMAT
  = Ok (mkDatetime (year t) (month t) (day t) (hour t) (minute t) (second t) 0).
Proof.
  intros Hv. unfold valid_datetime in Hv. apply andb_true_iff in Hv as [Hd Ht].
  pose proof Hd as Hd'. apply valid_date_spec in Hd' as (Hy & Hm & Hdd).
  pose proof Ht as Ht'. apply valid_time_spec in Ht' as (Hh & Hmi & Hs & Hus).
  pose proof (days_in_month_bounds (year t) (month t)).
  unfold strptime. rewrite compile_canonical, canonical_text_eq.
  cbn [mbind result_bind].
  rewrite run_DY, run_DLit, run_Dm, run_DLit, run_Dd, run_DLit, run_DH, run_DLit,
    run_DM, run_DLit, run_DS by lia.
  change ".00Z" with (String "." (String "0" (String "0" (String "Z" "")))).
  rewrite !run_DLit. cbn.
  unfold make_datetime. rewrite Hd. simpl.
  replace (valid_time (hour t) (minute t) (second t) 0) with true; [reflexivity|].
  symmetry. apply valid_time_spec. lia.
Qed.

Lemma strptime_strftime_canonical (t : datetime) :
  valid_datetime t = true → 1000 ≤ year t →
  strptime (strftime t CANONICAL_FORMAT) CANONICAL_FORMAT
  = Ok (mkDatetime (year t) (month t) (day t) (hour t) (minute t) (second t) 0).
Proof.
  intros Hv Hy. rewrite strftime_canonical_text by assumption.
  apply strptime_canonical_text, Hv.
Qed.

Lemma canonical_text_matches_pattern (t : datetime) :
  matches_canonical_pattern (canonical_text t) = true.
Proof.
  rewrite canonical_text_eq. unfold pad4, pad2. simpl.
  rewrite !digit_char_is_digit. reflexivity.
Qed.

Lemma strftime_matches_canonical_pattern (t : datetime) :
  1000 ≤ year t → matches_canonical_pattern (strftime t CANONICAL_FORMAT) = true.
Proof.
  intros H. rewrite strftime_canonical_text by assumption.
  apply canonical_text_matches_pattern.
Qed.

Lemma two_digits_dash_r (a : ascii) : two_digits a "-" = None.
Proof. unfold two_digits. destruct (digit_val a); reflexivity. Qed.

Lemma parse_Y_year_text_below_1000 (y : Z) (m : Z) (rest : string) :
  y < 1000 → parse_Y (year_text y +:+ String "-" (pad2 m +:+ rest)) = None.
Proof.
  intros Hy. unfold year_text, pad2.
  destruct (y <? 10) eqn:E1.
  - simpl. rewrite two_digits_dash_r. reflexivity.
  - destruct (y <? 100) eqn:E2.
    + simpl. destruct (two_digits _ _); reflexivity.
    + destruct (y <? 1000) eqn:E3; [|apply Z.ltb_ge in E3; lia].
      simpl. rewrite two_digits_dash_r.
      destruct (two_digits _ _); reflexivity.
Qed.

(** For a year below 1000 the text the module writes has fewer than four
    year digits, and the canonical format does not parse it. *)
Lemma strptime_strftime_below_1000 (t : datetime) :
  year t < 1000 →
  strptime (strftime t CANONICAL_FORMAT) CANONICAL_FORMAT = Raise ValueError.
Proof.
  intros Hy. unfold strptime. rewrite compile_canonical, strftime_canonical.
  cbn [mbind result_bind run_directives run_directive].
  rewrite parse_Y_year_text_below_1000 by assumption. reflexivity.
Qed.

(** ** The site format *)

Lemma run_Db (m : Z) (ds : list directive) (rest : string) (acc : parsed) :
  1 ≤ m ≤ 12 →
  run_directives (Db :: ds) (month_abbr m +:+ rest) acc
  = run_directives ds rest
      (mkParsed (p_year acc) m (p_day acc) (p_hour acc) (p_hour12 acc)
         (p_pm acc) (p_minute acc) (p_second acc)).
Proof.
  intros Hm. cbn [run_directives run_directive].
  rewrite parse_b_month_abbr by assumption. reflexivity.
Qed.

Lemma run_Dd_unpadded (v : Z) (c : ascii) (ds : list directive) (rest : string)
    (acc : parsed) :
  1 ≤ v ≤ 31 → is_digit c = false →
  run_directives (Dd :: ds) (unpadded v +:+ String c rest) acc
  = run_directives ds (String c rest)
      (mkParsed (p_year acc) (p_month acc) v (p_hour acc) (p_hour12 acc)
         (p_pm acc) (p_minute acc) (p_second acc)).
Proof.
  intros Hv Hc. cbn [run_directives run_directive]. unfold parse_d.
  rewrite parse_1or2_unpadded; [reflexivity | lia | assumption |].
  unfold between. destruct (v <? 10) eqn:E; lia.
Qed.

Lemma run_DI_unpadded (v : Z) (c : ascii) (ds : list directive) (rest : string)
    (acc : parsed) :
  1 ≤ v ≤ 12 → is_digit c = false →
  run_directives (DI :: ds) (unpadded v +:+ String c rest) acc
  = run_directives ds (String c rest)
      (mkParsed (p_year acc) (p_month acc) (p_day acc) (p_hour acc) (Some v)
         (p_pm acc) (p_minute acc) (p_second acc)).
Proof.
  intros Hv Hc. cbn [run_directives run_directive]. unfold parse_I.
  rewrite parse_1or2_unpadded; [reflexivity | lia | assumption |].
  unfold between. destruct (v <? 10) eqn:E; lia.
Qed.

Lemma site_date_body_eq (y m d h12 mi : Z) (pm : bool) :
  site_date_body y m d h12 mi pm =
    month_abbr m +:+ String "." (String " " (unpadded d +:+ String "," (String " "
    (pad4 y +:+ String " " (unpadded h12 +:+ String ":" (pad2 mi +:+ String " "
    (if pm then "PM" else "AM"))))))).
Proof. reflexivity. Qed.

Lemma pad4_head (v : Z) (rest : string) :
  ∃ c tail, pad4 v +:+ rest = String c tail ∧ is_digit c = true.
Proof.
  unfold pad4, pad2. simpl. eexists _, _.
  split; [reflexivity | apply digit_char_is_digit].
Qed.

Lemma valid_site_fields_spec (y m d h12 mi : Z) :
  valid_site_fields y m d h12 mi = true ↔
  valid_date y m d = true ∧ 1 ≤ h12 ≤ 12 ∧ 0 ≤ mi ≤ 59.
Proof. unfold valid_site_fields. rewrite !andb_true_iff, !Z.leb_le. tauto. Qed.

Lemma hour24_bounds (h12 : Z) (pm : bool) : 1 ≤ h12 ≤ 12 → 0 ≤ hour24 h12 pm ≤ 23.
Proof.
  intros H. unfold hour24. destruct pm; destruct (h12 =? 12) eqn:E; lia.
Qed.

(** Parsing a text of the site format, its " ET" removed, gives the fields
    it was written from. *)
Lemma strptime_site_date_body (y m d h12 mi : Z) (pm : bool) :
  valid_site_fields y m d h12 mi = true →
  strptime (site_date_body y m d h12 mi pm) SITE_FORMAT
  = Ok (mkDatetime y m d (hour24 h12 pm) mi 0 0).
Proof.
  intros Hv. apply valid_site_fields_spec in Hv as (Hd & Hh & Hmi).
  pose proof Hd as Hd'. apply valid_date_spec in Hd' as (Hy & Hm & Hdd).
  pose proof (days_in_month_bounds y m).
  unfold strptime. rewrite compile_site, site_date_body_eq.
  cbn [mbind result_bind].
  rewrite run_Db, run_DLit by lia.
  destruct (unpadded_head d (String "," (String " " (pad4 y +:+ String " "
    (unpadded h12 +:+ String ":" (pad2 mi +:+ String " "
    (if pm then "PM" else "AM"))))))) as (c1 & t1 & E1 & H1).
  rewrite E1, run_DSpace by assumption. rewrite <- E1.
  rewrite run_Dd_unpadded, run_DLit by (lia || reflexivity).
  destruct (pad4_head y (String " " (unpadded h12 +:+ String ":"
    (pad2 mi +:+ String " " (if pm then "PM" else "AM")))))
    as (c2 & t2 & E2 & H2).
  rewrite E2, run_DSpace by assumption. rewrite <- E2.
  rewrite run_DY by lia.
  destruct (unpadded_head h12 (String ":" (pad2 mi +:+ String " "
    (if pm then "PM" else "AM")))) as (c3 & t3 & E3 & H3).
  rewrite E3, run_DSpace by assumption. rewrite <- E3.
  rewrite run_DI_unpadded, run_DLit, run_DM by (lia || reflexivity).
  pose proof (hour24_bounds h12 pm Hh) as Hh24.
  assert (Hmk : make_datetime y m d (hour24 h12 pm) mi 0 0
                = Ok (mkDatetime y m d (hour24 h12 pm) mi 0 0)).
  { unfold make_datetime. rewrite Hd.
    replace (valid_time (hour24 h12 pm) mi 0 0) with true; [reflexivity|].
    symmetry. apply valid_time_spec. lia. }
  destruct pm; cbn; exact Hmk.
Qed.

(** ** Removing the zone marker *)

Lemma string_length_app (a b : string) :
  String.length (a +:+ b) = (String.length a + String.length b)%nat.
Proof. induction a as [|c a IH]; simpl; congruence. Qed.

Lemma remove_all_empty (fuel : nat) (old : string) : remove_all fuel old "" = "".
Proof. destruct fuel; reflexivity. Qed.

Lemma prefix_cons (a b : ascii) (s1 s2 : string) :
  String.prefix (String a s1) (String b s2)
  = if ascii_dec a b then String.prefix s1 s2 else false.
Proof. reflexivity. Qed.

Lemma prefix_ET_false (c : ascii) (rest : string) :
  (if Ascii.eqb c " " then
     match rest with
     | String c2 _ => negb (Ascii.eqb c2 "E")
     | EmptyString => false
     end
   else true) = true →
  String.prefix " ET" (String c (rest +:+ " ET")) = false.
Proof.
  intros H. rewrite prefix_cons.
  destruct (ascii_dec " " c) as [<-|Hne]; [|reflexivity].
  destruct rest as [|c2 rest]; [discriminate|].
  change (String c2 rest +:+ " ET") with (String c2 (rest +:+ " ET")).
  rewrite prefix_cons.
  destruct (ascii_dec "E" c2) as [<-|]; [discriminate | reflexivity].
Qed.

Lemma remove_all_ET (body : string) (fuel : nat) :
  no_space_E body = true →
  (String.length body + 3 ≤ fuel)%nat →
  remove_all fuel " ET" (body +:+ " ET") = body.
Proof.
  revert fuel. induction body as [|c body IH]; intros fuel Hno Hfuel.
  - destruct fuel as [|fuel]; [simpl in Hfuel; lia|].
    simpl. apply remove_all_empty.
  - destruct fuel as [|fuel]; [simpl in Hfuel; lia|].
    simpl in Hno. apply andb_true_iff in Hno as [Hc Hrest].
    change (String c body +:+ " ET") with (String c (body +:+ " ET")).
    cbn [remove_all]. rewrite prefix_ET_false by assumption.
    f_equal. apply IH; [assumption | simpl in Hfuel; lia].
Qed.

Lemma replace_ET (body : string) :
  no_space_E body = true → replace_with_empty (body +:+ " ET") " ET" = body.
Proof.
  intros H. unfold replace_with_empty. apply remove_all_ET; [assumption|].
  rewrite string_length_app. simpl. lia.
Qed.

Lemma is_digit_eqb_space (c : ascii) : is_digit c = true → Ascii.eqb c " " = false.
Proof. destruct c as [[] [] [] [] [] [] [] []]; try reflexivity; discriminate. Qed.

Lemma is_digit_eqb_E (c : ascii) : is_digit c = true → Ascii.eqb c "E" = false.
Proof. destruct c as [[] [] [] [] [] [] [] []]; try reflexivity; discriminate. Qed.

Lemma no_space_E_digit (c : ascii) (rest : string) :
  is_digit c = true → no_space_E (String c rest) = no_space_E rest.
Proof. intros H. simpl. rewrite is_digit_eqb_space by assumption. reflexivity. Qed.

Lemma no_space_E_space_digit (c : ascii) (rest : string) :
  is_digit c = true →
  no_space_E (String " " (String c rest)) = no_space_E rest.
Proof.
  intros H. simpl.
  rewrite is_digit_eqb_E, is_digit_eqb_space by assumption. reflexivity.
Qed.

Lemma no_space_E_unpadded (v : Z) (rest : string) :
  no_space_E (String " " (unpadded v +:+ rest)) = no_space_E rest.
Proof.
  unfold unpadded, pad2. destruct (v <? 10); simpl String.append;
    rewrite no_space_E_space_digit by apply digit_char_is_digit;
    rewrite ?no_space_E_digit by apply digit_char_is_digit; reflexivity.
Qed.

Lemma no_space_E_site_date_body (y m d h12 mi : Z) (pm : bool) :
  no_space_E (site_date_body y m d h12 mi pm) = true.
Proof.
  rewrite site_date_body_eq.
  assert (Hm : ∀ rest, no_space_E (month_abbr m +:+ String "." rest) = no_space_E rest).
  { intros rest. unfold month_abbr. repeat case_match; reflexivity. }
  rewrite Hm, no_space_E_unpadded.
  change (no_space_E (String "," (String " " ?r))) with (no_space_E (String " " r)).
  unfold pad4, pad2. simpl String.append.
  rewrite no_space_E_space_digit by apply digit_char_is_digit.
  rewrite !no_space_E_digit by apply digit_char_is_digit.
  rewrite no_space_E_unpadded.
  change (no_space_E (String ":" ?r)) with (no_space_E r).
  rewrite !no_space_E_digit by apply digit_char_is_digit.
  destruct pm; reflexivity.
Qed.

Lemma replace_ET_site_date_string (y m d h12 mi : Z) (pm : bool) :
  replace_with_empty (site_date_string y m d h12 mi pm) " ET"
  = site_date_body y m d h12 mi pm.
Proof. apply replace_ET, no_space_E_site_date_body. Qed.

(** ** The date normalizer *)

Lemma last_four_hours_spec (y m d h12 : Z) (pm : bool) :
  last_four_hours y m d h12 pm = false ↔
  ¬ (y = 9999 ∧ m = 12 ∧ d = 31 ∧ 20 ≤ hour24 h12 pm).
Proof.
  unfold last_four_hours.
  destruct (y =? 9999) eqn:Ey, (m =? 12) eqn:Em, (d =? 31) eqn:Ed,
    (20 <=? hour24 h12 pm) eqn:Eh; simpl;
    rewrite ?Z.eqb_eq, ?Z.eqb_neq, ?Z.leb_le, ?Z.leb_gt in *;
    split; try discriminate; try reflexivity; intros; lia.
Qed.

Lemma add_hours_4_year (y m d h mi sec us : Z) (t' : datetime) :
  valid_date y m d = true → 0 ≤ h ≤ 23 →
  add_hours (mkDatetime y m d h mi sec us) 4 = Ok t' →
  year t' = if (m =? 12) && (d =? 31) && (20 <=? h) then y + 1 else y.
Proof.
  intros Hv Hh. apply valid_date_spec in Hv as (Hy & Hm & Hd).
  unfold add_hours. simpl.
  destruct (Z_lt_le_dec h 20) as [Hlt | Hge].
  - replace ((h + 4) / 24) with 0 by (symmetry; apply Z.div_small; lia).
    simpl. intros [= <-]. simpl.
    replace (20 <=? h) with false by (symmetry; apply Z.leb_gt; lia).
    rewrite andb_false_r. reflexivity.
  - replace ((h + 4) / 24) with 1
      by (apply (Z.div_unique _ _ _ (h + 4 - 24)); lia).
    change (Z.to_nat 1) with 1%nat. cbn [add_days]. unfold date_succ.
    replace (20 <=? h) with true by (symmetry; apply Z.leb_le; lia).
    rewrite andb_true_r.
    destruct (d <? days_in_month y m) eqn:Ed.
    + simpl. intros [= <-]. simpl. apply Z.ltb_lt in Ed.
      destruct (m =? 12) eqn:Em; [|reflexivity].
      apply Z.eqb_eq in Em. subst m. change (days_in_month y 12) with 31 in Ed.
      replace (d =? 31) with false by (symmetry; apply Z.eqb_neq; lia).
      reflexivity.
    + apply Z.ltb_ge in Ed. destruct (m <? 12) eqn:Em.
      * simpl. intros [= <-]. simpl. apply Z.ltb_lt in Em.
        replace (m =? 12) with false by (symmetry; apply Z.eqb_neq; lia).
        reflexivity.
      * apply Z.ltb_ge in Em. assert (m = 12) as -> by lia.
        change (days_in_month y 12) with 31 in *.
        assert (d = 31) as -> by lia.
        destruct (y <? MAXYEAR); simpl; [|discriminate].
        intros [= <-]. reflexivity.
Qed.

(** The normalizer on a text of the site format: what the module writes
    for the time four hours after the fields of the text. *)
Lemma convert_site_date_string (y m d h12 mi : Z) (pm : bool) :
  valid_site_fields y m d h12 mi = true →
  last_four_hours y m d h12 pm = false →
  ∃ t', add_hours (mkDatetime y m d (hour24 h12 pm) mi 0 0) 4 = Ok t'
    ∧ valid_datetime t' = true
    ∧ microsecond t' = 0
    ∧ to_seconds t' = to_seconds (mkDatetime y m d (hour24 h12 pm) mi 0 0) + 4 * 3600
    ∧ year t' = year_after_four_hours y m d h12 pm
    ∧ convert_date_to_standard_format (site_date_string y m d h12 mi pm)
      = Ok (strftime t' CANONICAL_FORMAT).
Proof.
  intros Hv Hlast.
  pose proof Hv as Hv'. apply valid_site_fields_spec in Hv' as (Hd & Hh & Hmi).
  pose proof (hour24_bounds h12 pm Hh) as Hh24.
  apply last_four_hours_spec in Hlast.
  destruct (add_hours_4_ok (mkDatetime y m d (hour24 h12 pm) mi 0 0))
    as (t' & Hadd & Hvt & Hsec & Hus).
  { unfold valid_datetime. simpl. rewrite Hd. apply valid_time_spec. lia. }
  { simpl. exact Hlast. }
  exists t'. split; [exact Hadd|]. split; [exact Hvt|]. split; [exact Hus|].
  split; [exact Hsec|].
  split; [exact (add_hours_4_year _ _ _ _ _ _ _ _ Hd Hh24 Hadd)|].
  unfold convert_date_to_standard_format.
  rewrite replace_ET_site_date_string, strptime_site_date_body by assumption.
  cbn [mbind result_bind]. rewrite Hadd. reflexivity.
Qed.

Lemma year_after_four_hours_in_range (y m d h12 : Z) (pm : bool) :
  year_after_four_hours y m d h12 pm ≤ 9999 → 1 ≤ y ≤ 9999 →
  last_four_hours y m d h12 pm = false.
Proof.
  unfold year_after_four_hours, last_four_hours. intros H Hy.
  destruct (y =? 9999) eqn:Ey; [|reflexivity]. apply Z.eqb_eq in Ey.
  destruct ((m =? 12) && (d =? 31) && (20 <=? hour24 h12 pm)) eqn:E.
  - lia.
  - simpl. rewrite <- !andb_assoc in *. exact E.
Qed.

(** In the last four hours of 9999-12-31 the normalizer raises. *)
Lemma convert_last_four_hours (y m d h12 mi : Z) (pm : bool) :
  valid_site_fields y m d h12 mi = true →
  last_four_hours y m d h12 pm = true →
  convert_date_to_standard_format (site_date_string y m d h12 mi pm)
  = Raise OverflowError.
Proof.
  intros Hv Hlast.
  pose proof Hv as Hv'. apply valid_site_fields_spec in Hv' as (_ & Hh & _).
  pose proof (hour24_bounds h12 pm Hh) as Hh24.
  unfold last_four_hours in Hlast.
  rewrite !andb_true_iff, !Z.eqb_eq, Z.leb_le in Hlast.
  destruct Hlast as [[[-> ->] ->] Hge].
  unfold convert_date_to_standard_format.
  rewrite replace_ET_site_date_string, strptime_site_date_body by assumption.
  cbn [mbind result_bind].
  rewrite add_hours_4_overflow; [reflexivity | reflexivity .. | simpl; lia].
Qed.

(** For a result before year 1000 the module writes the year without
    leading zeros: the text does not match the canonical pattern and the
    canonical format does not parse it. *)
Example convert_year_999 :
  valid_site_fields 999 1 1 1 0 = true
  ∧ convert_date_to_standard_format "Jan. 1, 0999 1:00 AM ET"
    = Ok "999-01-01T05:00:00.00Z"
  ∧ matches_canonical_pattern "999-01-01T05:00:00.00Z" = false
  ∧ strptime "999-01-01T05:00:00.00Z" CANONICAL_FORMAT = Raise ValueError.
Proof. vm_compute. auto. Qed.

(** C4, as the code has it: for every text of the site format whose time
    four hours later falls in the years 1000 to 9999, the normalizer
    returns a text of the canonical pattern, and parsing that text with the
    canonical format gives the time exactly four hours after the one parsed
    from the text without its " ET". *)
Theorem C4_normalizer_four_hours_later (y m d h12 mi : Z) (pm : bool) :
  valid_site_fields y m d h12 mi = true →
  1000 ≤ year_after_four_hours y m d h12 pm ≤ 9999 →
  ∃ (s : string) (t t' : datetime),
    convert_date_to_standard_format (site_date_string y m d h12 mi pm) = Ok s
    ∧ matches_canonical_pattern s = true
    ∧ strptime (replace_with_empty (site_date_string y m d h12 mi pm) " ET")
        SITE_FORMAT = Ok t
    ∧ strptime s CANONICAL_FORMAT = Ok t'
    ∧ to_microseconds t' = to_microseconds t + 4 * 3600 * 1000000.
Proof.
  intros Hv Hyear.
  assert (Hlast : last_four_hours y m d h12 pm = false).
  { apply year_after_four_hours_in_range; [lia|].
    apply valid_site_fields_spec in Hv as (Hd & _).
    apply valid_date_spec in Hd. lia. }
  destruct (convert_site_date_string y m d h12 mi pm Hv Hlast)
    as (t' & _ & Hvt & Hus & Hsec & Hy' & Hconv).
  assert (H1000 : 1000 ≤ year t') by lia.
  exists (strftime t' CANONICAL_FORMAT),
    (mkDatetime y m d (hour24 h12 pm) mi 0 0),
    (mkDatetime (year t') (month t') (day t') (hour t') (minute t') (second t') 0).
  split; [exact Hconv|].
  split; [apply strftime_matches_canonical_pattern, H1000|].
  split; [rewrite replace_ET_site_date_string; apply strptime_site_date_body, Hv|].
  split; [apply strptime_strftime_canonical; assumption|].
  unfold to_microseconds. simpl microsecond.
  change (to_seconds (mkDatetime (year t') (month t') (day t') (hour t')
                        (minute t') (second t') 0)) with (to_seconds t').
  rewrite Hsec. lia.
Qed.

Lemma C4_normalizer_four_hours_later_witness :
  ∃ (s : string) (t t' : datetime),
    convert_date_to_standard_format "Dec. 31, 2023 11:59 PM ET" = Ok s
    ∧ matches_canonical_pattern s = true
    ∧ strptime (replace_with_empty "Dec. 31, 2023 11:59 PM ET" " ET")
        SITE_FORMAT = Ok t
    ∧ strptime s CANONICAL_FORMAT = Ok t'
    ∧ to_microseconds t' = to_microseconds t + 4 * 3600 * 1000000.
Proof.
  apply (C4_normalizer_four_hours_later 2023 12 31 11 59 true);
    [reflexivity | vm_compute; split; discriminate].
Defined.

(** At 8:00 PM of 9999-12-31, a text of the site format, four hours on is
    past the last datetime and the normalizer raises. *)
Lemma C4_last_hours_counterexample :
  valid_site_fields 9999 12 31 8 0 = true
  ∧ site_date_string 9999 12 31 8 0 true = "Dec. 31, 9999 8:00 PM ET"
  ∧ convert_date_to_standard_format "Dec. 31, 9999 8:00 PM ET" = Raise OverflowError.
Proof. vm_compute. auto. Qed.

(** ** The age filter *)

Lemma now_time_of_valid (now : datetime) :
  valid_datetime now = true → 1000 ≤ year now →
  now_time_of now = Ok (mkDatetime (year now) (month now) (day now)
                          (hour now) (minute now) (second now) 0).
Proof. apply strptime_strftime_canonical. Qed.

(** The result of the filter on a canonical text, for a clock of the year
    1000 or later: the whole seconds of the clock are compared. *)
Lemma check_for_max_age_canonical (now T : datetime) (B : Z) :
  valid_datetime now = true → 1000 ≤ year now → valid_datetime T = true →
  check_for_max_age now (canonical_text T) (SInt B)
  = Ok (to_seconds now - to_seconds T <=? B).
Proof.
  intros Hnow Hy HT. unfold check_for_max_age.
  rewrite strptime_canonical_text, now_time_of_valid by assumption.
  cbn [mbind result_bind as_number].
  unfold sub_microseconds, to_microseconds. simpl microsecond.
  change (to_seconds (mkDatetime (year now) (month now) (day now) (hour now)
                        (minute now) (second now) 0)) with (to_seconds now).
  change (to_seconds (mkDatetime (year T) (month T) (day T) (hour T)
                        (minute T) (second T) 0)) with (to_seconds T).
  destruct (to_seconds now - to_seconds T <=? B) eqn:E;
    [apply Z.leb_le in E | apply Z.leb_gt in E].
  - replace (_ <=? _) with true; [reflexivity|]. symmetry. apply Z.leb_le. lia.
  - replace (_ <=? _) with false; [reflexivity|]. symmetry. apply Z.leb_gt. lia.
Qed.

(** The whole seconds between a clock reading and a time without
    microseconds: the elapsed time rounded down. *)
Lemma elapsed_whole_seconds (now T : datetime) :
  valid_datetime now = true → microsecond T = 0 →
  (to_microseconds now - to_microseconds T) / 1000000
  = to_seconds now - to_seconds T.
Proof.
  intros Hnow HT. unfold valid_datetime in Hnow.
  apply andb_true_iff in Hnow as [_ Ht].
  apply valid_time_spec in Ht as (_ & _ & _ & Hus).
  unfold to_microseconds. rewrite HT. symmetry.
  apply (Z.div_unique _ _ _ (microsecond now)); lia.
Qed.

(** C5, as the code has it: for a canonical timestamp [T] and a budget [B]
    the filter returns, and it returns true exactly when the time elapsed
    from [T] to now, rounded down to whole seconds, is at most [B] (the
    clock is read to the whole second); an elapsed time of exactly [B]
    seconds is accepted; a timestamp ahead of now is accepted for every
    budget that is not negative. *)
Theorem C5_age_filter_whole_seconds (now T : datetime) (B : Z) :
  valid_datetime now = true → 1000 ≤ year now →
  valid_datetime T = true → microsecond T = 0 →
  let verdict := check_for_max_age now (canonical_text T) (SInt B) in
  let elapsed := to_microseconds now - to_microseconds T in
  (verdict = Ok true ∨ verdict = Ok false)
  ∧ (verdict = Ok true ↔ elapsed / 1000000 ≤ B)
  ∧ (elapsed = B * 1000000 → verdict = Ok true)
  ∧ (0 ≤ B → elapsed < 0 → verdict = Ok true).
Proof.
  intros Hnow Hy HT Hus verdict elapsed. subst verdict.
  rewrite check_for_max_age_canonical by assumption.
  pose proof (elapsed_whole_seconds now T Hnow Hus) as Hel. fold elapsed in Hel.
  assert (Hfloor : 1000000 * (elapsed / 1000000) ≤ elapsed
                   < 1000000 * (elapsed / 1000000) + 1000000).
  { pose proof (Z.div_mod elapsed 1000000).
    pose proof (Z.mod_pos_bound elapsed 1000000). lia. }
  rewrite <- Hel.
  destruct (elapsed / 1000000 <=? B) eqn:E;
    [apply Z.leb_le in E | apply Z.leb_gt in E].
  - repeat split; auto.
  - split; [auto|]. split; [split; [discriminate | lia]|]. split; intros; lia.
Qed.

Lemma C5_age_filter_whole_seconds_witness :
  check_for_max_age (mkDatetime 2023 7 18 12 15 0 0)
    "2023-07-18T12:13:00.00Z" (SInt 120) = Ok true.
Proof.
  pose proof (C5_age_filter_whole_seconds (mkDatetime 2023 7 18 12 15 0 0)
                (mkDatetime 2023 7 18 12 13 0 0) 120 eq_refl) as H.
  destruct H as (_ & _ & Hboundary & _); [vm_compute; discriminate | reflexivity..|].
  exact (Hboundary eq_refl).
Defined.

(** The claim's "iff" and "every budget" fail on the code: half a second
    past the budget the filter still returns true, and a timestamp ten
    seconds ahead of now is refused with a budget of -20. *)
Lemma C5_subsecond_and_negative_budget_counterexample :
  (check_for_max_age (mkDatetime 2023 7 18 12 15 0 500000)
     "2023-07-18T12:13:00.00Z" (SInt 120) = Ok true
   ∧ ¬ (to_microseconds (mkDatetime 2023 7 18 12 15 0 500000)
        - to_microseconds (mkDatetime 2023 7 18 12 13 0 0) ≤ 120 * 1000000))
  ∧ (check_for_max_age (mkDatetime 2023 7 18 12 15 0 0)
       "2023-07-18T12:15:10.00Z" (SInt (-20)) = Ok false
     ∧ to_microseconds (mkDatetime 2023 7 18 12 15 0 0)
       < to_microseconds (mkDatetime 2023 7 18 12 15 10 0)).
Proof.
  split; (split; [vm_compute; reflexivity|]).
  - vm_compute. intros H. apply H. reflexivity.
  - vm_compute. reflexivity.
Qed.

(** * Further properties *)

(** ** Body extraction *)

Lemma string_app_assoc (a b c : string) : (a +:+ b) +:+ c = a +:+ (b +:+ c).
Proof. induction a as [|x a IH]; simpl; congruence. Qed.

(** The loop only appends to what it was given. *)
Lemma content_loop_acc (els : list Tag) (acc : string) :
  content_loop els acc = acc +:+ content_loop els "".
Proof.
  revert acc. induction els as [|el els IH]; intros acc; simpl.
  - symmetry. apply string_app_empty_r.
  - repeat case_match; try (symmetry; apply string_app_empty_r); try apply IH.
    rewrite IH. rewrite (IH (text el +:+ String "010" "")).
    rewrite !string_app_assoc. reflexivity.
Qed.

(** X1: a direct child named h2 ends the extraction: the content is that of
    the children before it, whatever the h2 holds and whatever follows. *)
Theorem X1_heading_halts_extraction
    (pre post : list Tag) (el : Tag) (acc : string) :
  name el = "h2" →
  content_loop (pre ++ el :: post) acc = content_loop pre acc.
Proof.
  intros Hname. apply content_loop_stop. left. rewrite Hname. reflexivity.
Qed.

Lemma X1_heading_halts_extraction_witness :
  content_loop ([mkTag "p" "A"] ++ mkTag "h2" "Related" :: [mkTag "p" "B"]) ""
  = content_loop [mkTag "p" "A"] "".
Proof. apply (X1_heading_halts_extraction [mkTag "p" "A"]). reflexivity. Defined.

(** X2: a figure, and a child without text, contribute nothing and do not
    stop the loop (unless the child is an h2): the content is the same as
    without that child. *)
Theorem X2_figure_and_empty_skipped
    (pre post : list Tag) (el : Tag) (acc : string) :
  name el ≠ "h2" →
  name el = "figure" ∨ text el = "" →
  content_loop (pre ++ el :: post) acc = content_loop (pre ++ post) acc.
Proof.
  intros Hh2 Hskip. apply String.eqb_neq in Hh2.
  revert acc. induction pre as [|x pre IH]; intros acc; simpl.
  - rewrite Hh2. destruct Hskip as [-> | ->]; simpl; [reflexivity|].
    rewrite andb_false_r. reflexivity.
  - repeat case_match; auto.
Qed.

Lemma X2_figure_and_empty_skipped_witness :
  content_loop ([mkTag "p" "A"] ++ mkTag "figure" "chart" :: [mkTag "p" "B"]) ""
  = content_loop ([mkTag "p" "A"] ++ [mkTag "p" "B"]) "".
Proof.
  apply (X2_figure_and_empty_skipped [mkTag "p" "A"]).
  - discriminate.
  - left. reflexivity.
Defined.

(** X3: when every child is kept (no h2, no figure, no empty text, no
    boilerplate line), the content is the texts of the children in
    document order, each followed by one newline. *)
Theorem X3_kept_children_joined (els : list Tag) :
  forallb retained els = true →
  content_loop els "" = joined_text els.
Proof.
  induction els as [|el els IH]; intros Hall; [reflexivity|].
  simpl in Hall. apply andb_true_iff in Hall as [Hel Hall].
  unfold retained in Hel. rewrite !andb_true_iff, !negb_true_iff in Hel.
  destruct Hel as [[[H1 H2] H3] H4].
  simpl. rewrite H1, H2, H3, H4. simpl.
  rewrite content_loop_acc, IH by assumption.
  rewrite string_app_assoc. reflexivity.
Qed.

Lemma X3_kept_children_joined_witness :
  content_loop [mkTag "p" "A"; mkTag "div" "B"] ""
  = String "A" (String "010" (String "B" (String "010" ""))).
Proof.
  apply (X3_kept_children_joined [mkTag "p" "A"; mkTag "div" "B"]). reflexivity.
Defined.

(** ** The boilerplate pattern *)

Lemma strip_prefix_Some (p s r : string) :
  strip_prefix p s = Some r → s = p +:+ r.
Proof.
  unfold strip_prefix. destruct (String.prefix p s) eqn:E; [|discriminate].
  intros [= <-]. revert s E. induction p as [|a p IH]; intros s E.
  - reflexivity.
  - destruct s as [|b s]; [discriminate|].
    rewrite prefix_cons in E. destruct (ascii_dec a b) as [->|]; [|discriminate].
    simpl. f_equal. apply IH, E.
Qed.

Lemma skip_word_split (s : string) :
  ∃ w, all_word w = true ∧ s = w +:+ skip_word s.
Proof.
  induction s as [|c s (w & Hw & IH)].
  - exists "". split; reflexivity.
  - simpl. destruct (is_word c) eqn:E.
    + exists (String c w). simpl. rewrite E, Hw. split; [reflexivity|].
      f_equal. exact IH.
    + exists "". split; reflexivity.
Qed.

Lemma at_dollar_spec (s : string) :
  at_dollar s = true ↔ s = "" ∨ s = String "010" "".
Proof.
  unfold at_dollar. rewrite orb_true_iff, !String.eqb_eq. reflexivity.
Qed.

(** X4: among ASCII texts, the pattern accepts exactly "More on ", one
    word of one or more letters, digits and underscores, an optional colon
    and an optional final newline: case matters, a second word or any other
    trailing character is refused. *)
Theorem X4_pattern_accepts_exactly (txt : string) :
  is_ascii_text txt = true →
  (re_match_REGEX_PATTERN txt = true ↔
   ∃ word tail,
     word ≠ "" ∧ all_word word = true
     ∧ (tail = "" ∨ tail = ":" ∨ tail = String "010" ""
        ∨ tail = String ":" (String "010" ""))
     ∧ txt = "More on " +:+ word +:+ tail).
Proof.
  intros _. split.
  - unfold re_match_REGEX_PATTERN.
    destruct (strip_prefix "More on " txt) as [s|] eqn:E; [|discriminate].
    apply strip_prefix_Some in E. destruct s as [|c rest]; [discriminate|].
    intros H. apply andb_true_iff in H as [Hc Hrest].
    destruct (skip_word_split rest) as (w & Hw & Hsplit).
    exists (String c w), (skip_word rest).
    split; [discriminate|]. split; [simpl; rewrite Hc, Hw; reflexivity|].
    split.
    + unfold match_after_word in Hrest.
      destruct (skip_word rest) as [|a r] eqn:Er; [left; reflexivity|].
      destruct (Ascii.eqb a ":") eqn:Ea.
      * apply Ascii.eqb_eq in Ea. subst a.
        apply at_dollar_spec in Hrest as [-> | ->]; auto.
      * assert (Hd : at_dollar (String a r) = true).
        { destruct a as [[] [] [] [] [] [] [] []]; try exact Hrest; discriminate. }
        apply at_dollar_spec in Hd as [Hd | Hd]; [discriminate | auto].
    + rewrite E. simpl. do 9 f_equal. exact Hsplit.
  - intros (word & tail & Hne & Hw & Htail & ->).
    rewrite re_match_more_on by assumption.
    destruct Htail as [-> | [-> | [-> | ->]]]; reflexivity.
Qed.

Lemma X4_pattern_accepts_exactly_witness :
  re_match_REGEX_PATTERN "More on XYZ and ABC" = true ↔
  ∃ word tail,
    word ≠ "" ∧ all_word word = true
    ∧ (tail = "" ∨ tail = ":" ∨ tail = String "010" ""
       ∨ tail = String ":" (String "010" ""))
    ∧ "More on XYZ and ABC" = "More on " +:+ word +:+ tail.
Proof. apply (X4_pattern_accepts_exactly "More on XYZ and ABC"). reflexivity. Defined.

(** ** The author label *)

Lemma lstrip_head (s chars : string) :
  match lstrip s chars with
  | EmptyString => True
  | String c _ => mem_char c chars = false
  end.
Proof.
  induction s as [|c s IH]; simpl; [exact I|].
  destruct (mem_char c chars) eqn:E; [exact IH | exact E].
Qed.

(** X5: the author of a record never begins with "B", "y", ":" or a space:
    [lstrip("By: ")] goes on removing such characters after the label, so
    a name that begins with one of them loses its beginning. *)
Theorem X5_author_never_begins_with_label_character
    (w : World) (_url : string) (_max_age : scalar) (item : Item)
    (c : ascii) (rest : string) :
  request_content_with_timeout w _url _max_age = Some item →
  author item = String c rest →
  mem_char c "By: " = false.
Proof.
  intros Hitem Hauthor.
  apply request_content_author in Hitem as (soup & author_text & _ & _ & Ha).
  pose proof (lstrip_head author_text "By: ") as H.
  rewrite <- Ha, Hauthor in H. exact H.
Qed.

Lemma X5_author_never_begins_with_label_character_witness :
  mem_char "o" "By: " = false.
Proof.
  destruct (request_content_with_timeout sample_world
              "https://seekingalpha.com/news/1" (SInt 12000)) as [item|] eqn:E;
    [|vm_compute in E; discriminate].
  apply (X5_author_never_begins_with_label_character sample_world
           "https://seekingalpha.com/news/1" (SInt 12000) item "o" "b" E).
  vm_compute in E. injection E as <-. reflexivity.
Defined.

(** X6: when the name after the label begins with a character other than
    "B", "y", ":" and space, the author is the text with the label removed
    and nothing else. *)
Theorem X6_label_removed_before_other_characters (c : ascii) (rest : string) :
  mem_char c "By: " = false →
  lstrip ("By: " +:+ String c rest) "By: " = String c rest
  ∧ lstrip ("By: " +:+ String c rest) "By: "
    = spec_strip_label "By: " ("By: " +:+ String c rest).
Proof.
  intros Hc.
  assert (H : lstrip ("By: " +:+ String c rest) "By: " = String c rest).
  { change ("By: " +:+ String c rest)
      with (String "B" (String "y" (String ":" (String " " (String c rest))))).
    cbn [lstrip]. change (mem_char "B" "By: ") with true.
    change (mem_char "y" "By: ") with true. change (mem_char ":" "By: ") with true.
    change (mem_char " " "By: ") with true. cbn iota. rewrite Hc. reflexivity. }
  split; [exact H|]. rewrite H. unfold spec_strip_label, strip_prefix.
  change ("By: " +:+ String c rest)
    with (String "B" (String "y" (String ":" (String " " (String c rest))))).
  reflexivity.
Qed.

Lemma X6_label_removed_before_other_characters_witness :
  lstrip "By: Alice" "By: " = "Alice".
Proof.
  apply (X6_label_removed_before_other_characters "A" "lice"). reflexivity.
Defined.

(** ** read_parameters *)

Lemma dict_get_insert_ne (d : gmap string scalar) (k key : string) (v : scalar)
    (dflt : Z) :
  k ≠ key → dict_get (<[k := v]> d) key dflt = dict_get d key dflt.
Proof. intros H. unfold dict_get. rewrite lookup_insert_ne by assumption. reflexivity. Qed.

Lemma read_parameters_dict (d : gmap string scalar) :
  read_parameters (PDict d) =
    (dict_get d "max_oldness_seconds" DEFAULT_OLDNESS_SECONDS,
     dict_get d "maximum_items_to_collect" DEFAULT_MAXIMUM_ITEMS,
     dict_get d "min_post_length" DEFAULT_MIN_POST_LENGTH).
Proof.
  unfold read_parameters. simpl.
  destruct (bool_decide (d = ∅)) eqn:E; simpl; [|reflexivity].
  apply bool_decide_eq_true in E. subst d.
  unfold dict_get. rewrite !lookup_empty. reflexivity.
Qed.

(** X7: a key other than the three the module reads changes nothing: the
    settings read from a dict with such a key added are those read from
    the dict without it. *)
Theorem X7_unknown_keys_ignored (d : gmap string scalar) (k : string) (v : scalar) :
  k ≠ "max_oldness_seconds" → k ≠ "maximum_items_to_collect" →
  k ≠ "min_post_length" →
  read_parameters (PDict (<[k := v]> d)) = read_parameters (PDict d).
Proof.
  intros H1 H2 H3. rewrite !read_parameters_dict.
  rewrite !dict_get_insert_ne by assumption. reflexivity.
Qed.

Lemma X7_unknown_keys_ignored_witness :
  read_parameters (PDict (<["verbose" := SBool true]> ∅)) = read_parameters (PDict ∅).
Proof. apply X7_unknown_keys_ignored; discriminate. Defined.

(** X8: min_post_length is read and never used: the pipeline yields the
    same records, and ends the same way, whatever value the dict gives
    it. *)
Theorem X8_min_post_length_has_no_effect
    (w : World) (d : gmap string scalar) (v : scalar) :
  query w (PDict (<["min_post_length" := v]> d)) = query w (PDict d).
Proof.
  rewrite !query_unfold, !read_parameters_dict. simpl.
  rewrite !dict_get_insert_ne by discriminate. reflexivity.
Qed.

(** ** The cap of the pipeline *)

Lemma query_loop_take (items : list Item) (e : result unit) (n cap : Z) :
  yielded (query_loop items e n (SInt cap))
  = take (Z.to_nat (Z.max (cap - n) 1)) items.
Proof.
  revert n. induction items as [|item items IH]; intros n.
  - rewrite take_nil. reflexivity.
  - simpl. destruct (cap <=? n + 1) eqn:E; simpl.
    + apply Z.leb_le in E.
      replace (Z.max (cap - n) 1) with 1 by lia. reflexivity.
    + apply Z.leb_gt in E. rewrite IH.
      replace (Z.max (cap - n) 1) with (Z.succ (Z.max (cap - (n + 1)) 1)) by lia.
      rewrite Z2Nat.inj_succ by lia. reflexivity.
Qed.

(** X9: with an integer cap the pipeline yields the first records of the
    scanner, as many as the cap says and never fewer than one when the
    scanner has one: a cap of 0, or a negative cap, counts as 1. *)
Theorem X9_query_yields_first_records (w : World) (parameters : pyobj) (cap : Z) :
  (read_parameters parameters).1.2 = SInt cap →
  yielded (query w parameters)
  = take (Z.to_nat (Z.max cap 1))
      (yielded (request_entries_with_timeout w url_main_endpoint
                  (read_parameters parameters).1.1)).
Proof.
  intros Hcap. rewrite query_unfold. simpl. rewrite Hcap, query_loop_take.
  replace (cap - 0) with cap by lia. reflexivity.
Qed.

Lemma X9_query_yields_first_records_witness :
  yielded (query sample_world
             (PDict {[ "max_oldness_seconds" := SInt 12000;
                       "maximum_items_to_collect" := SInt (-3) ]}))
  = take 1
      (yielded (request_entries_with_timeout sample_world url_main_endpoint
                  (SInt 12000))).
Proof.
  pose proof (X9_query_yields_first_records sample_world
    (PDict {[ "max_oldness_seconds" := SInt 12000;
              "maximum_items_to_collect" := SInt (-3) ]}) (-3)) as H.
  rewrite H; vm_compute; reflexivity.
Defined.

(** X10: a cap that is neither an int nor a bool ([None], a string) is
    noticed only at the comparison after the first yield: the pipeline
    yields the first record of the scanner and then raises TypeError; when
    the scanner yields nothing the comparison is never made and the
    pipeline ends normally. *)
Theorem X10_cap_not_a_number
    (w : World) (parameters : pyobj) :
  as_number (read_parameters parameters).1.2 = Raise TypeError →
  let inner := request_entries_with_timeout w url_main_endpoint
                 (read_parameters parameters).1.1 in
  yielded (query w parameters) = take 1 (yielded inner)
  ∧ ending (query w parameters)
    = match yielded inner with
      | [] => Ok tt
      | _ :: _ => Raise TypeError
      end.
Proof.
  intros Hcap inner. subst inner. rewrite query_unfold. simpl.
  rewrite request_entries_ending.
  destruct (yielded (request_entries_with_timeout w url_main_endpoint
                       (read_parameters parameters).1.1)) as [|item items].
  - split; reflexivity.
  - simpl. rewrite Hcap. split; reflexivity.
Qed.

Lemma X10_cap_not_a_number_witness :
  ending (query sample_world
            (PDict {[ "max_oldness_seconds" := SInt 12000;
                      "maximum_items_to_collect" := SNone ]}))
  = Raise TypeError.
Proof.
  pose proof (X10_cap_not_a_number sample_world
    (PDict {[ "max_oldness_seconds" := SInt 12000;
              "maximum_items_to_collect" := SNone ]})) as H.
  destruct H as [_ H]; [vm_compute; reflexivity|].
  rewrite H. vm_compute. reflexivity.
Defined.

(** ** The records of the extractor *)

Lemma convert_Ok_strftime (date_text s : string) :
  convert_date_to_standard_format date_text = Ok s →
  ∃ t', s = strftime t' CANONICAL_FORMAT.
Proof.
  unfold convert_date_to_standard_format. intros H.
  apply rbind_Ok in H as (t & _ & H). apply rbind_Ok in H as (t' & _ & H).
  injection H as <-. eauto.
Qed.

Lemma check_for_max_age_Ok_parsed (now : datetime) (s : string) (a : scalar) (b : bool) :
  check_for_max_age now s a = Ok b → ∃ t, strptime s CANONICAL_FORMAT = Ok t.
Proof.
  unfold check_for_max_age. intros H. apply rbind_Ok in H as (t & Ht & _). eauto.
Qed.

(** A normalized date that the age filter accepts has the canonical
    pattern: the filter parses it with the canonical format, which refuses
    the short year the module writes before year 1000. *)
Lemma accepted_date_matches_canonical_pattern
    (now : datetime) (date_text s : string) (a : scalar) (b : bool) :
  convert_date_to_standard_format date_text = Ok s →
  check_for_max_age now s a = Ok b →
  matches_canonical_pattern s = true.
Proof.
  intros Hconv Hcheck.
  apply convert_Ok_strftime in Hconv as (t' & ->).
  apply check_for_max_age_Ok_parsed in Hcheck as (t & Ht).
  destruct (Z_lt_le_dec (year t') 1000) as [Hlt | Hge].
  - rewrite strptime_strftime_below_1000 in Ht by assumption. discriminate.
  - apply strftime_matches_canonical_pattern, Hge.
Qed.

Lemma request_content_record (w : World) (u : string) (a : scalar) (item : Item) :
  request_content_with_timeout w u a = Some item →
  url item = u
  ∧ domain item = "seekingalpha.com"
  ∧ matches_canonical_pattern (created_at item) = true
  ∧ check_for_max_age (utcnow w u) (created_at item) a = Ok true.
Proof.
  intros H. apply request_content_Some in H
    as (soup & date_text & post_date & ? & ? & ? & _ & _ & Hconv & Hfresh & _ & _ & _ & ->).
  simpl. repeat split; [|exact Hfresh].
  eapply accepted_date_matches_canonical_pattern; eassumption.
Qed.

(** X11: every record the extractor returns has the URL it was asked for,
    the domain "seekingalpha.com", a created_at of the canonical pattern,
    and is within the age budget at the time it is checked. *)
Theorem X11_record_is_fresh_and_canonical
    (w : World) (_url : string) (_max_age : scalar) (item : Item) :
  request_content_with_timeout w _url _max_age = Some item →
  url item = _url
  ∧ domain item = "seekingalpha.com"
  ∧ matches_canonical_pattern (created_at item) = true
  ∧ check_for_max_age (utcnow w _url) (created_at item) _max_age = Ok true.
Proof. apply request_content_record. Qed.

Lemma X11_record_is_fresh_and_canonical_witness :
  url <$> request_content_with_timeout sample_world
            "https://seekingalpha.com/news/2" (SInt 12000)
  = Some "https://seekingalpha.com/news/2".
Proof.
  destruct (request_content_with_timeout sample_world
              "https://seekingalpha.com/news/2" (SInt 12000)) as [item|] eqn:E;
    [|vm_compute in E; discriminate].
  destruct (X11_record_is_fresh_and_canonical _ _ _ _ E) as (Hurl & _).
  simpl. rewrite Hurl. reflexivity.
Defined.

(** X12: no record comes out of a page that cannot be fetched or that
    lacks the date, the title, the author or the content container: the
    exception is caught and the extractor returns [None]. *)
Theorem X12_missing_element_gives_no_record
    (w : World) (_url : string) (_max_age : scalar) :
  (∃ e, http_get w _url = Raise e)
  ∨ (∃ soup, http_get w _url = Ok soup
       ∧ (find_post_date soup = None ∨ find_post_title soup = None
          ∨ find_post_author_nick soup = None
          ∨ find_content_container soup = None)) →
  request_content_with_timeout w _url _max_age = None.
Proof.
  intros Hbad.
  destruct (request_content_with_timeout w _url _max_age) as [item|] eqn:E;
    [|reflexivity].
  apply request_content_Some in E
    as (soup & ? & ? & ? & ? & ? & Hget & Hd & _ & _ & Ht & Ha & Hc & _).
  destruct Hbad as [(e & He) | (soup' & Hget' & Hmiss)]; [congruence|].
  assert (soup' = soup) as -> by congruence.
  destruct Hmiss as [? | [? | [? | ?]]]; congruence.
Qed.

Lemma X12_missing_element_gives_no_record_witness :
  request_content_with_timeout sample_world
    "https://seekingalpha.com/market-news" (SInt 12000) = None.
Proof.
  apply X12_missing_element_gives_no_record. right.
  exists sample_listing. split; [reflexivity|]. left. reflexivity.
Defined.

(** ** The age budget and the scanner *)

Lemma check_for_max_age_mono (now : datetime) (_date : string) (B B' : Z) :
  B ≤ B' →
  check_for_max_age now _date (SInt B) = Ok true →
  check_for_max_age now _date (SInt B') = Ok true.
Proof.
  intros HB. unfold check_for_max_age.
  destruct (strptime _date CANONICAL_FORMAT) as [t|]; simpl; [|discriminate].
  destruct (now_time_of now) as [n|]; simpl; [|discriminate].
  destruct (sub_microseconds n t <=? B * 1000000) eqn:E; [|discriminate].
  intros _. apply Z.leb_le in E.
  replace (sub_microseconds n t <=? B' * 1000000) with true; [reflexivity|].
  symmetry. apply Z.leb_le. lia.
Qed.

Lemma request_content_mono (w : World) (u : string) (B B' : Z) (item : Item) :
  B ≤ B' →
  request_content_with_timeout w u (SInt B) = Some item →
  request_content_with_timeout w u (SInt B') = Some item.
Proof.
  intros HB H. apply request_content_Some in H
    as (soup & date_text & post_date & post_title & author_text & paragraphs
        & Hget & Hd & Hconv & Hfresh & Ht & Ha & Hc & ->).
  unfold request_content_with_timeout, request_content_body.
  rewrite Hget. cbn [mbind result_bind]. rewrite Hd. cbn [deref mbind result_bind].
  rewrite Hconv. cbn [mbind result_bind].
  rewrite (check_for_max_age_mono _ _ B B' HB Hfresh). cbn [mbind result_bind negb].
  rewrite Ht, Ha, Hc. reflexivity.
Qed.

(** X13: widening the age budget never loses a record: what the scanner
    yields with a budget is the beginning of what it yields with any larger
    budget. *)
Theorem X13_larger_budget_extends_scan
    (w : World) (_cards : list Anchor) (B B' : Z) :
  B ≤ B' →
  yielded (parse_entry_for_elements w _cards (SInt B))
  `prefix_of` yielded (parse_entry_for_elements w _cards (SInt B')).
Proof.
  intros HB. unfold parse_entry_for_elements. rewrite !yielded_gen_try_except.
  induction _cards as [|c cards IH]; [reflexivity|].
  rewrite !parse_entry_loop_cons. unfold record_of.
  destruct (href c) as [h|]; simpl; [|reflexivity].
  destruct (request_content_with_timeout w (article_url h) (SInt B))
    as [item|] eqn:E; [|apply prefix_nil].
  rewrite (request_content_mono _ _ _ _ _ HB E).
  destruct IH as [k Hk]. exists k. rewrite Hk. reflexivity.
Qed.

Lemma X13_larger_budget_extends_scan_witness :
  yielded (parse_entry_for_elements sample_world
             (find_all_post_list_item_title sample_listing) (SInt 360))
  `prefix_of`
  yielded (parse_entry_for_elements sample_world
             (find_all_post_list_item_title sample_listing) (SInt 12000)).
Proof. apply X13_larger_budget_extends_scan. lia. Defined.

(** X14: when every link of the listing gives a record, the scanner yields
    all of them, in the order of the links. *)
Theorem X14_scan_without_gap_yields_all
    (w : World) (_max_age : scalar) (_cards : list Anchor) (items : list Item) :
  mapM (record_of w _max_age) _cards = Some items →
  yielded (parse_entry_for_elements w _cards _max_age) = items
  ∧ length items = length _cards.
Proof.
  intros H. apply mapM_Some in H.
  unfold parse_entry_for_elements. rewrite yielded_gen_try_except.
  split; [|symmetry; eapply Forall2_length, H].
  induction H as [|c item cards items Hc _ IH]; [reflexivity|].
  rewrite parse_entry_loop_cons, Hc, IH. reflexivity.
Qed.

Lemma X14_scan_without_gap_yields_all_witness :
  map url (yielded (parse_entry_for_elements sample_world
                      [mkAnchor (Some "/news/1"); mkAnchor (Some "/news/2")]
                      (SInt 12000)))
  = ["https://seekingalpha.com/news/1"; "https://seekingalpha.com/news/2"].
Proof.
  destruct (mapM (record_of sample_world (SInt 12000))
              [mkAnchor (Some "/news/1"); mkAnchor (Some "/news/2")])
    as [items|] eqn:E; [|vm_compute in E; discriminate].
  destruct (X14_scan_without_gap_yields_all _ _ _ _ E) as [H _].
  rewrite H. vm_compute in E. injection E as <-. reflexivity.
Defined.

(** ** What the pipeline yields *)

Lemma string_prefix_app (p s : string) : String.prefix p (p +:+ s) = true.
Proof.
  induction p as [|a p IH]; [destruct s; reflexivity|].
  change (String a p +:+ s) with (String a (p +:+ s)).
  rewrite prefix_cons. destruct (ascii_dec a a); [exact IH | congruence].
Qed.

Lemma parse_entry_loop_Forall (w : World) (a : scalar) (cards : list Anchor) :
  Forall (λ item, ∃ h, request_content_with_timeout w (article_url h) a = Some item)
    (yielded (parse_entry_loop w cards a)).
Proof.
  induction cards as [|c cards IH]; [constructor|].
  rewrite parse_entry_loop_cons. unfold record_of.
  destruct (href c) as [h|]; simpl; [|constructor].
  destruct (request_content_with_timeout w (article_url h) a) as [item|] eqn:E;
    [|constructor].
  constructor; [eauto | exact IH].
Qed.

Lemma query_loop_Forall (P : Item → Prop) (items : list Item) (e : result unit)
    (n : Z) (cap : scalar) :
  Forall P items → Forall P (yielded (query_loop items e n cap)).
Proof.
  intros H. revert n. induction H as [|item items Hitem _ IH]; intros n; simpl.
  - constructor.
  - destruct (as_number cap) as [c|]; simpl; [|repeat constructor; exact Hitem].
    destruct (c <=? n + 1); simpl; [repeat constructor; exact Hitem|].
    constructor; [exact Hitem | apply IH].
Qed.

Lemma request_entries_Forall (w : World) (u : string) (a : scalar) :
  Forall (λ item, ∃ h, request_content_with_timeout w (article_url h) a = Some item)
    (yielded (request_entries_with_timeout w u a)).
Proof.
  unfold request_entries_with_timeout. rewrite yielded_gen_try_except.
  destruct (http_get w u) as [soup|e]; [|constructor].
  unfold parse_entry_for_elements. rewrite yielded_gen_try_except.
  apply parse_entry_loop_Forall.
Qed.

(** X15: the pipeline never yields a stale or foreign record: each record
    has a URL that begins with the site origin, the domain
    "seekingalpha.com", a created_at of the canonical pattern, and an age
    within max_oldness_seconds when its article was checked. *)
Theorem X15_pipeline_yields_only_fresh_site_records
    (w : World) (parameters : pyobj) :
  Forall (λ item,
            String.prefix SITE_ORIGIN (url item) = true
            ∧ domain item = "seekingalpha.com"
            ∧ matches_canonical_pattern (created_at item) = true
            ∧ check_for_max_age (utcnow w (url item)) (created_at item)
                (read_parameters parameters).1.1 = Ok true)
    (yielded (query w parameters)).
Proof.
  rewrite query_unfold. simpl. apply query_loop_Forall.
  eapply Forall_impl; [apply request_entries_Forall|].
  intros item (h & H). simpl in H.
  destruct (request_content_record _ _ _ _ H) as (Hu & Hd & Hc & Hf).
  rewrite Hu. repeat split; try assumption. apply string_prefix_app.
Qed.

(** ** The normalizer on the site format *)

Lemma add_hours_same_day (t : datetime) (h : Z) :
  0 ≤ hour t → 0 ≤ h → hour t + h < 24 →
  add_hours t h
  = Ok (mkDatetime (year t) (month t) (day t) (hour t + h)
          (minute t) (second t) (microsecond t)).
Proof.
  intros H0 Hh Hlt. unfold add_hours.
  replace ((hour t + h) / 24) with 0 by (symmetry; apply Z.div_small; lia).
  rewrite Z.mod_small by lia. reflexivity.
Qed.

Lemma add_hours_4_next_day (t : datetime) :
  20 ≤ hour t ≤ 23 → day t < days_in_month (year t) (month t) →
  add_hours t 4
  = Ok (mkDatetime (year t) (month t) (day t + 1) (hour t - 20)
          (minute t) (second t) (microsecond t)).
Proof.
  intros Hh Hd. unfold add_hours.
  replace ((hour t + 4) / 24) with 1
    by (apply (Z.div_unique _ _ _ (hour t + 4 - 24)); lia).
  replace ((hour t + 4) mod 24) with (hour t - 20)
    by (apply (Z.mod_unique _ _ 1); lia).
  change (Z.to_nat 1) with 1%nat. cbn [add_days]. unfold date_succ.
  apply Z.ltb_lt in Hd. rewrite Hd. reflexivity.
Qed.

(** X16: the text the normalizer writes for a year from 1000 on.  Before
    8 PM the date is kept and the hour of the day moves on by four; from
    8 PM on, when the day is not the last of its month, the date is the
    next day and the hour is the hour of the day less twenty.  12 AM counts
    as hour 0 and 12 PM as hour 12; the seconds are always "00". *)
Theorem X16_normalized_text (y m d h12 mi : Z) (pm : bool) :
  valid_site_fields y m d h12 mi = true →
  1000 ≤ y →
  (hour24 h12 pm < 20 →
   convert_date_to_standard_format (site_date_string y m d h12 mi pm)
   = Ok (pad4 y +:+ "-" +:+ pad2 m +:+ "-" +:+ pad2 d +:+ "T"
         +:+ pad2 (hour24 h12 pm + 4) +:+ ":" +:+ pad2 mi +:+ ":00.00Z"))
  ∧ (20 ≤ hour24 h12 pm → d < days_in_month y m →
     convert_date_to_standard_format (site_date_string y m d h12 mi pm)
     = Ok (pad4 y +:+ "-" +:+ pad2 m +:+ "-" +:+ pad2 (d + 1) +:+ "T"
           +:+ pad2 (hour24 h12 pm - 20) +:+ ":" +:+ pad2 mi +:+ ":00.00Z")).
Proof.
  intros Hv Hy.
  pose proof Hv as Hv'. apply valid_site_fields_spec in Hv' as (_ & Hh & _).
  pose proof (hour24_bounds h12 pm Hh) as Hh24.
  unfold convert_date_to_standard_format.
  rewrite replace_ET_site_date_string, strptime_site_date_body by assumption.
  cbn [mbind result_bind]. split.
  - intros Hlt. rewrite add_hours_same_day by (simpl; lia).
    cbn [mbind result_bind].
    rewrite strftime_canonical_text by (simpl; lia). reflexivity.
  - intros Hge Hd. rewrite add_hours_4_next_day by (simpl; lia).
    cbn [mbind result_bind].
    rewrite strftime_canonical_text by (simpl; lia). reflexivity.
Qed.

Lemma X16_normalized_text_witness :
  convert_date_to_standard_format "Jul. 18, 2023 12:05 AM ET"
  = Ok "2023-07-18T04:05:00.00Z"
  ∧ convert_date_to_standard_format "Jul. 18, 2023 9:30 PM ET"
    = Ok "2023-07-19T01:30:00.00Z".
Proof.
  split.
  - apply (X16_normalized_text 2023 7 18 12 5 false); [reflexivity | lia | simpl; lia].
  - apply (X16_normalized_text 2023 7 18 9 30 true);
      [reflexivity | lia | simpl; lia | simpl; lia].
Defined.

Lemma prefix_ET_false_plain (c : ascii) (rest : string) :
  (if Ascii.eqb c " " then
     match rest with
     | String c2 _ => negb (Ascii.eqb c2 "E")
     | EmptyString => false
     end
   else true) = true →
  String.prefix " ET" (String c rest) = false.
Proof.
  intros H. rewrite prefix_cons.
  destruct (ascii_dec " " c) as [<-|Hne]; [|reflexivity].
  destruct rest as [|c2 rest]; [discriminate|].
  rewrite prefix_cons.
  destruct (ascii_dec "E" c2) as [<-|]; [discriminate | reflexivity].
Qed.

Lemma remove_all_no_ET (body : string) (fuel : nat) :
  no_space_E body = true → remove_all fuel " ET" body = body.
Proof.
  revert fuel. induction body as [|c body IH]; intros fuel Hno.
  - apply remove_all_empty.
  - destruct fuel as [|fuel]; [reflexivity|].
    simpl in Hno. apply andb_true_iff in Hno as [Hc Hrest].
    cbn [remove_all]. rewrite prefix_ET_false_plain by assumption.
    f_equal. apply IH, Hrest.
Qed.

(** X17: the zone marker is removed when it is there and not asked for: a
    text of the site format without its " ET" is normalized to the same
    result as with it. *)
Theorem X17_zone_marker_optional (y m d h12 mi : Z) (pm : bool) :
  convert_date_to_standard_format (site_date_body y m d h12 mi pm)
  = convert_date_to_standard_format (site_date_string y m d h12 mi pm).
Proof.
  unfold convert_date_to_standard_format.
  rewrite replace_ET_site_date_string.
  unfold replace_with_empty.
  rewrite remove_all_no_ET by apply no_space_E_site_date_body.
  reflexivity.
Qed.

(** ** The age filter and the clock *)

(** X18: the filter reads the clock to the whole second: two readings that
    differ in their microseconds only give the same verdict, for every
    timestamp text and every budget. *)
Theorem X18_filter_ignores_microseconds
    (now : datetime) (us : Z) (_date : string) (_max_age : scalar) :
  valid_datetime now = true → 0 ≤ us ≤ 999999 →
  check_for_max_age
    (mkDatetime (year now) (month now) (day now) (hour now) (minute now)
       (second now) us) _date _max_age
  = check_for_max_age now _date _max_age.
Proof.
  intros _ _. unfold check_for_max_age, now_time_of.
  rewrite !strftime_canonical. reflexivity.
Qed.

Lemma X18_filter_ignores_microseconds_witness :
  check_for_max_age (mkDatetime 2023 7 18 12 15 0 999999)
    "2023-07-18T12:13:00.00Z" (SInt 120)
  = check_for_max_age (mkDatetime 2023 7 18 12 15 0 0)
      "2023-07-18T12:13:00.00Z" (SInt 120).
Proof.
  apply (X18_filter_ignores_microseconds (mkDatetime 2023 7 18 12 15 0 0) 999999);
    [reflexivity | lia].
Defined.

Lemma check_for_max_age_not_a_number (now : datetime) (_date : string) (a : scalar) :
  as_number a = Raise TypeError →
  ∃ e, check_for_max_age now _date a = Raise e.
Proof.
  intros Ha. unfold check_for_max_age.
  destruct (strptime _date CANONICAL_FORMAT) as [t|e]; simpl; [|eauto].
  destruct (now_time_of now) as [n|e]; simpl; [|eauto].
  rewrite Ha. simpl. eauto.
Qed.

(** X19: a max_oldness_seconds that is neither an int nor a bool makes the
    comparison of every article raise; the exception is caught in the
    extractor, so no article gives a record and the pipeline yields nothing
    and ends normally, whatever the site holds. *)
Theorem X19_budget_not_a_number_yields_nothing (w : World) (parameters : pyobj) :
  as_number (read_parameters parameters).1.1 = Raise TypeError →
  (∀ u, request_content_with_timeout w u (read_parameters parameters).1.1 = None)
  ∧ query w parameters = mkGenerated [] (Ok tt).
Proof.
  intros Ha.
  assert (Hnone : ∀ u, request_content_with_timeout w u
                         (read_parameters parameters).1.1 = None).
  { intros u.
    destruct (request_content_with_timeout w u (read_parameters parameters).1.1)
      as [item|] eqn:E; [|reflexivity].
    apply request_content_Some in E
      as (? & ? & post_date & ? & ? & ? & _ & _ & _ & Hfresh & _).
    destruct (check_for_max_age_not_a_number (utcnow w u) post_date _ Ha) as [e He].
    congruence. }
  split; [exact Hnone|].
  rewrite query_unfold. simpl.
  assert (Hy : yielded (request_entries_with_timeout w url_main_endpoint
                          (read_parameters parameters).1.1) = []).
  { unfold request_entries_with_timeout. rewrite yielded_gen_try_except.
    destruct (http_get w url_main_endpoint) as [soup|e]; [|reflexivity].
    unfold parse_entry_for_elements. rewrite yielded_gen_try_except.
    destruct (find_all_post_list_item_title soup) as [|c cards]; [reflexivity|].
    rewrite parse_entry_loop_cons. unfold record_of.
    destruct (href c) as [h|]; simpl; [|reflexivity].
    rewrite Hnone. reflexivity. }
  rewrite Hy, request_entries_ending. reflexivity.
Qed.

Lemma X19_budget_not_a_number_yields_nothing_witness :
  query sample_world (PDict {[ "max_oldness_seconds" := SStr "12000" ]})
  = mkGenerated [] (Ok tt).
Proof.
  apply (X19_budget_not_a_number_yields_nothing sample_world
           (PDict {[ "max_oldness_seconds" := SStr "12000" ]})).
  vm_compute. reflexivity.
Defined.
